(** * Navigation environments: a shallow embedding of [nav_to_center/env.py]

    The Python module defines an abstract gym environment [Navigation] and two
    concrete variants, [NavToCenter] and [NavToEdges].  An environment object
    is embedded as the record [env]; every method becomes a computation in the
    monad [M], which threads the object and records how the call ends.

    Numbers.  Python floats and numpy float arrays are embedded as real
    numbers; rounding is not modelled.  Two things of the floating-point
    world are kept visible:
    - division of two Python numbers raises [ZeroDivisionError] on a zero
      divisor ([py_truediv]);
    - numpy division by zero and [np.sqrt] of a negative number do not raise
      but produce [inf] or [nan]; the embedding ends such a run with the
      outcome [NonReal], about which nothing more is said ([np_divide],
      [np_sqrt]): the Python call itself goes on with the special value and
      may still return or raise.
    The arguments of a constructor are Python floats and may be [inf] or
    [nan] ([pyfloat]); of float arithmetic on them the overflow of a product
    to infinity is kept, since [int] raises on it.

    Randomness.  The module-level generator [rng] is replaced by explicit
    draws passed to [reset]: the pair [u] returned by [rng.normal(0, 1, 2)]
    and the unit draw [t] in [[0, 1)] from which [rng.uniform(low, high)]
    computes [low + (high - low) * t].

    Arrays.  [location] and [prev_location] are two distinct arrays at all
    times (the code always stores a [copy()] in [prev_location]), so each is
    embedded by its value.  The array handed to [step] is assumed not to be
    the array held in [location]; that [_take_action] divides the caller's
    array in place is not tracked. *)

From Stdlib Require Import Reals Lra Lia ZArith List Bool String.
Import ListNotations.
Open Scope R_scope.

(** ** Numbers *)

Definition Rleb (x y : R) : bool := if Rle_dec x y then true else false.
Definition Rltb (x y : R) : bool := if Rlt_dec x y then true else false.

(** The exceptions the module can raise. *)
Inductive exn : Type :=
| AssertionError                     (* a failed [assert] in [_take_action] *)
| AttributeError                     (* [action.shape] on an object without it *)
| TypeError                          (* in-place [/=] on an integer array *)
| ZeroDivisionError
| StoppedException                   (* Exception("Cannot take action after the agent has stopped") *)
| ValueError (i : Z)                 (* ValueError(f"Index i={i} initializes agent within the goal.") *)
| OverflowError                      (* [int] of an infinite float *)
| ValueErrorNaN.                     (* ValueError raised by [int] of a nan *)

(** Python [a / b] on two Python numbers. *)
Definition py_truediv (a b : R) : exn + R :=
  if Req_dec_T b 0 then inl ZeroDivisionError else inr (a / b).

(** numpy [a / b] on float64 values: [None] stands for [inf] or [nan]. *)
Definition np_divide (a b : R) : option R :=
  if Req_dec_T b 0 then None else Some (a / b).

(** [np.sqrt]: [None] stands for [nan]. *)
Definition np_sqrt (x : R) : option R :=
  if Rlt_dec x 0 then None else Some (sqrt x).

(** Python [int(x)] on a float truncates toward zero. *)
Definition py_int (x : R) : Z :=
  if Rle_dec 0 x then Zfloor x else Zceil x.

(** [int(np.ceil(x))] *)
Definition np_ceil (x : R) : Z := Zceil x.







(** A numpy array of shape [(2,)]. *)
Definition vec : Type := (R * R)%type.

Definition vadd (a b : vec) : vec := (fst a + fst b, snd a + snd b).
Definition vscale (c : R) (a : vec) : vec := (c * fst a, c * snd a).

Definition vdivide (a : vec) (d : R) : option vec :=
  match np_divide (fst a) d, np_divide (snd a) d with
  | Some x, Some y => Some (x, y)
  | _, _ => None
  end.

Definition GOLDEN_RATIO : R := (sqrt 5 + 1) / 2.
Definition GOLDEN_ANGLE : R := 2 * PI * (2 - GOLDEN_RATIO).

(** [get_norm(x)] is [np.sqrt((x ** 2).sum(-1))]; the argument of the root is a
    sum of squares, so the root is always defined. *)
Definition get_norm (x : vec) : R := sqrt (fst x ^ 2 + snd x ^ 2).

(** [get_norm] applied to a single coordinate, as in the biased reward. *)
Definition get_norm0 (x : R) : R := sqrt (x ^ 2).

(** ** The environment object *)

(** The class of the object; abstract methods dispatch on it. *)
Inductive variant : Type := IsNavToCenter | IsNavToEdges.

Record env : Type := mkEnv {
  kind : variant;
  goal_radius : R;
  world_radius : R;
  world_scale : R;
  is_eval : bool;
  max_step_scale : R;
  sparsity : R;
  biased_reward_shaping : bool;
  max_steps : Z;
  num_steps : Z;
  stop : bool;
  location : vec;
  prev_location : vec
}.

Definition set_num_steps (n : Z) (s : env) : env :=
  mkEnv (kind s) (goal_radius s) (world_radius s) (world_scale s) (is_eval s)
        (max_step_scale s) (sparsity s) (biased_reward_shaping s) (max_steps s)
        n (stop s) (location s) (prev_location s).

Definition set_stop (b : bool) (s : env) : env :=
  mkEnv (kind s) (goal_radius s) (world_radius s) (world_scale s) (is_eval s)
        (max_step_scale s) (sparsity s) (biased_reward_shaping s) (max_steps s)
        (num_steps s) b (location s) (prev_location s).

Definition set_location (v : vec) (s : env) : env :=
  mkEnv (kind s) (goal_radius s) (world_radius s) (world_scale s) (is_eval s)
        (max_step_scale s) (sparsity s) (biased_reward_shaping s) (max_steps s)
        (num_steps s) (stop s) v (prev_location s).

Definition set_prev_location (v : vec) (s : env) : env :=
  mkEnv (kind s) (goal_radius s) (world_radius s) (world_scale s) (is_eval s)
        (max_step_scale s) (sparsity s) (biased_reward_shaping s) (max_steps s)
        (num_steps s) (stop s) (location s) v.

(** ** Method calls: state, exceptions, and leaving the real numbers *)

Inductive outcome (A : Type) : Type :=
| Ok (a : A) (s : env)          (* the call returns [a], the object is now [s] *)
| Raise (e : exn) (s : env)     (* the call raises [e], the object is now [s] *)
| NonReal.                      (* numpy produced [inf] or [nan] *)

Arguments Ok {A} a s.
Arguments Raise {A} e s.
Arguments NonReal {A}.

Definition M (A : Type) : Type := env -> outcome A.

Definition ret {A} (a : A) : M A := fun s => Ok a s.

Definition bind {A B} (m : M A) (f : A -> M B) : M B :=
  fun s => match m s with
           | Ok a s' => f a s'
           | Raise e s' => Raise e s'
           | NonReal => NonReal
           end.

Definition raise {A} (e : exn) : M A := fun s => Raise e s.
Definition get : M env := fun s => Ok s s.
Definition modify (f : env -> env) : M unit := fun s => Ok tt (f s).

(** A Python-level division inside a method. *)
Definition py (r : exn + R) : M R :=
  fun s => match r with inl e => Raise e s | inr x => Ok x s end.

(** A numpy operation inside a method. *)
Definition np {A} (o : option A) : M A :=
  fun s => match o with Some a => Ok a s | None => NonReal end.

Declare Scope env_scope.
Delimit Scope env_scope with env.
Notation "x <- m ;; k" := (bind m (fun x => k))
  (at level 61, m at next level, right associativity) : env_scope.
Notation "m ;;; k" := (bind m (fun _ => k))
  (at level 61, right associativity) : env_scope.
Open Scope env_scope.

(** The object an outcome leaves behind, when the embedding knows it. *)
Definition state_of {A} (o : outcome A) : option env :=
  match o with
  | Ok _ s => Some s
  | Raise _ s => Some s
  | NonReal => None
  end.

(** ** Construction *)

(** The attributes of an object on which [Navigation.__init__] has returned:
    the arguments as given, the scale stored by the subclass, the value
    [int] returned for [max_steps], and the initial episode state. *)
Definition Navigation_object (k : variant) (ws : R)
    (is_eval0 : bool) (goal_radius0 world_radius0 max_step_scale0 sparsity0 : R)
    (biased0 : bool) (max_steps0 : Z) : env :=
  {| kind := k;
     goal_radius := goal_radius0;
     world_radius := world_radius0;
     world_scale := ws;
     is_eval := is_eval0;
     max_step_scale := max_step_scale0;
     sparsity := sparsity0;
     biased_reward_shaping := biased0;
     max_steps := max_steps0;
     num_steps := 0%Z;
     stop := false;
     location := (0, 0);
     prev_location := (0, 0) |}.

    (* the call returns, but an attribute of the object is [inf] or [nan] *)







(** ** Methods *)

(** [rng.uniform(low, high)] from the generator's unit draw [t], which lies
    in [[0, 1)]: the lower end [low] can be returned, [high] cannot.  What
    numpy does for [high < low] depends on its version; the statements below
    call [reset] with [low <= high] only. *)
Definition rng_uniform (low high t : R) : R := low + (high - low) * t.

(** [get_observation] returns the array held in [location]. *)
Definition get_observation : M vec := s <- get ;; ret (location s).

Module NavToCenter.

Definition _get_shaped_reward : M R :=
  s <- get ;;
  let cur := get_norm (location s) in
  let prev := get_norm (prev_location s) in
  ret ((prev - cur) * world_scale s).

Definition _at_goal : M bool :=
  s <- get ;;
  q <- py (py_truediv (goal_radius s) (world_scale s)) ;;
  ret (Rleb (get_norm (location s)) q).

Definition _reset_location (u : vec) (t : R) : M unit :=
  s <- get ;;
  let norm := sqrt (fst u ^ 2 + snd u ^ 2) in
  g <- py (py_truediv (goal_radius s) (world_scale s)) ;;
  radius <- np (np_sqrt (rng_uniform (g ^ 2) 1 t)) ;;
  loc <- np (vdivide (vscale radius u) norm) ;;
  modify (set_location loc) ;;;
  modify (fun s => set_prev_location (location s) s).

Definition fib_disc_init (i n : Z) : M vec :=
  s <- get ;;
  let theta := IZR i * GOLDEN_ANGLE in
  g_rad <- py (py_truediv (goal_radius s) (world_radius s)) ;;
  let lo := np_ceil (IZR n * g_rad ^ 2) in
  q <- py (py_truediv (IZR n) (1 - g_rad ^ 2)) ;;
  let hi := np_ceil q in
  x <- py (py_truediv (IZR (i + lo)) (IZR hi)) ;;
  r <- np (np_sqrt x) ;;
  g <- _at_goal ;;
  if g : bool then raise (ValueError i)
  else
    modify (set_location (vscale r (cos theta, sin theta))) ;;;
    get_observation.

End NavToCenter.

Module NavToEdges.

Definition _get_shaped_reward : M R :=
  s <- get ;;
  let cur := if biased_reward_shaping s then get_norm0 (fst (location s))
             else get_norm (location s) in
  let prev := if biased_reward_shaping s then get_norm0 (fst (prev_location s))
              else get_norm (prev_location s) in
  ret ((cur - prev) * world_scale s).

Definition _at_goal : M bool :=
  s <- get ;;
  ret (Rleb 1 (get_norm (location s))).

Definition _reset_location (u : vec) (t : R) : M unit :=
  s <- get ;;
  let norm := sqrt (fst u ^ 2 + snd u ^ 2) in
  h <- py (py_truediv (world_radius s) (world_scale s)) ;;
  radius <- np (np_sqrt (rng_uniform 0 h t)) ;;
  loc <- np (vdivide (vscale radius u) norm) ;;
  modify (set_location loc) ;;;
  modify (fun s => set_prev_location (location s) s) ;;;
  modify (fun s => set_prev_location (location s) s).

Definition fib_disc_init (i n : Z) : M vec :=
  s <- get ;;
  let theta := IZR i * GOLDEN_ANGLE in
  x <- py (py_truediv (IZR i) (IZR n)) ;;
  sq <- np (np_sqrt x) ;;
  r <- np (np_divide (sq * world_radius s) (world_scale s)) ;;
  g <- _at_goal ;;
  if g : bool then raise (ValueError i)
  else
    modify (set_location (vscale r (cos theta, sin theta))) ;;;
    get_observation.

End NavToEdges.

(** Dispatch of the four abstract methods on the class of the object. *)
Definition _at_goal : M bool :=
  s <- get ;;
  match kind s with
  | IsNavToCenter => NavToCenter._at_goal
  | IsNavToEdges => NavToEdges._at_goal
  end.

Definition _get_shaped_reward : M R :=
  s <- get ;;
  match kind s with
  | IsNavToCenter => NavToCenter._get_shaped_reward
  | IsNavToEdges => NavToEdges._get_shaped_reward
  end.

Definition _reset_location (u : vec) (t : R) : M unit :=
  s <- get ;;
  match kind s with
  | IsNavToCenter => NavToCenter._reset_location u t
  | IsNavToEdges => NavToEdges._reset_location u t
  end.

Definition fib_disc_init (i n : Z) : M vec :=
  s <- get ;;
  match kind s with
  | IsNavToCenter => NavToCenter.fib_disc_init i n
  | IsNavToEdges => NavToEdges.fib_disc_init i n
  end.

(** ** Actions and the shared lifecycle *)

Inductive dtype : Type := Float | Int.

(** What a caller may hand to [step]. *)
Inductive pyobj : Type :=
| Ndarray1 (dt : dtype) (data : list R)
    (* a one-dimensional numpy array; its shape is [(len data,)] *)
| NotNdarray1 (has_shape : bool).
    (* anything else: an array of another rank, a list, a tuple, [None], ...;
       [has_shape] tells whether the object has a [.shape] attribute *)

(** In-place [action /= d]: numpy refuses to store the float quotient in an
    integer array. *)
Definition idivide (dt : dtype) (a : vec) (d : R) : M vec :=
  match dt with
  | Int => raise TypeError
  | Float => np (vdivide a d)
  end.

(** [_take_action].  The two asserts are followed by a handler that prints
    [type(action)], [action] and [action.shape] and re-raises; evaluating
    [action.shape] in the handler raises [AttributeError] for an object
    without that attribute.  Printing is not modelled. *)
Definition _take_action (action : pyobj) : M unit :=
  match action with
  | NotNdarray1 has_shape =>
      raise (if has_shape then AssertionError else AttributeError)
  | Ndarray1 dt [x; y] =>
      s <- get ;;
      let act_norm := get_norm (x, y) in
      a1 <- (if Rltb 1 act_norm then idivide dt (x, y) act_norm
             else ret (x, y)) ;;
      a2 <- idivide dt a1 (world_scale s) ;;
      modify (fun s => set_location (vadd (location s) a2) s)
  | Ndarray1 _ _ => raise AssertionError
  end.

(** The [info] dictionary. *)
Definition info_dict : Type := list (string * bool).

Fixpoint lookup (k : string) (d : info_dict) : option bool :=
  match d with
  | [] => None
  | (k', v) :: d' => if String.eqb k k' then Some v else lookup k d'
  end.

(** [float(b)] *)
Definition float_of_bool (b : bool) : R := if b then 1 else 0.

Record step_result : Type := mkStepResult {
  observation : vec;
  reward : R;
  done : bool;
  info : info_dict
}.

Definition _get_step_result (action : pyobj) : M step_result :=
  observation0 <- get_observation ;;
  at_goal <- _at_goal ;;
  s <- get ;;
  (if ((0 <? num_steps s)%Z && at_goal) || (max_steps s <? num_steps s)%Z
   then modify (set_stop true) else ret tt) ;;;
  s <- get ;;
  if is_eval s then
    ret (mkStepResult observation0 (float_of_bool at_goal) (stop s)
           [("at_goal"%string, at_goal)])
  else
    shaped <- _get_shaped_reward ;;
    q <- np (np_divide shaped (sparsity s)) ;;
    let reward0 := 0 + q in
    let reward1 := if stop s && at_goal then reward0 + 1 else reward0 in
    ret (mkStepResult observation0 reward1 (stop s)
           [("at_goal"%string, at_goal)]).

Definition step (action : pyobj) : M step_result :=
  s <- get ;;
  if stop s then raise StoppedException
  else
    modify (fun s => set_num_steps (num_steps s + 1) s) ;;;
    modify (fun s => set_prev_location (location s) s) ;;;
    _take_action action ;;;
    _get_step_result action.

Definition reset (u : vec) (t : R) : M vec :=
  _reset_location u t ;;;
  modify (set_stop false) ;;;
  modify (set_num_steps 0) ;;;
  get_observation.

(** ** Calls a client can make on an object *)





(** A run of [step] calls that all return. *)
Fixpoint run_steps (actions : list pyobj) (s : env) : option (list step_result * env) :=
  match actions with
  | [] => Some ([], s)
  | a :: rest =>
      match step a s with
      | Ok r s' =>
          match run_steps rest s' with
          | Some (rs, s'') => Some (r :: rs, s'')
          | None => None
          end
      | _ => None
      end
  end.

(** ** Vocabulary for the statements *)

(** The object once [step] has counted the call and saved the position,
    before the action is looked at. *)
Definition begin_step (s : env) : env :=
  set_prev_location (location s) (set_num_steps (num_steps s + 1) s).

(** The exception, if any, that [_take_action] raises for an object. *)
Definition action_error (a : pyobj) : option exn :=
  match a with
  | NotNdarray1 has_shape => Some (if has_shape then AssertionError else AttributeError)
  | Ndarray1 Float [_; _] => None
  | Ndarray1 Int [_; _] => Some TypeError
  | Ndarray1 _ _ => Some AssertionError
  end.

(** [_at_goal] looks at the configuration and at [location] only. *)
Definition same_place (s1 s2 : env) : Prop :=
  kind s1 = kind s2 /\ goal_radius s1 = goal_radius s2 /\
  world_scale s1 = world_scale s2 /\ location s1 = location s2.

(** The termination test of [_get_step_result]. *)
Definition stops (s : env) (at_goal : bool) : bool :=
  ((0 <? num_steps s)%Z && at_goal) || (max_steps s <? num_steps s)%Z.


(** The displacement [_take_action] adds to [location] for a float array
    [[x, y]], when the scale is not zero. *)
Definition clip (a : vec) : vec :=
  if Rltb 1 (get_norm a) then (fst a / get_norm a, snd a / get_norm a) else a.

Definition displacement (ws : R) (a : vec) : vec :=
  (fst (clip a) / ws, snd (clip a) / ws).

(** The object after [step] has applied the float action [a]. *)
Definition moved (a : vec) (s : env) : env :=
  set_location (vadd (location s) (displacement (world_scale s) a)) (begin_step s).

(** The object [_get_step_result] leaves when the goal test gave [g]. *)
Definition settled (g : bool) (s : env) : env :=
  if stops s g then set_stop true s else s.

(** The fields written by the constructor and by no method. *)
Definition config (s : env) : variant * R * R * R * bool * R * R * bool * Z :=
  (kind s, goal_radius s, world_radius s, world_scale s, is_eval s,
   max_step_scale s, sparsity s, biased_reward_shaping s, max_steps s).

(** The action [np.array([0.0, 0.0])]. *)
Definition idle : pyobj := Ndarray1 Float [0; 0].

(** The point at distance [r] from the origin on the ray through [u], as
    [_reset_location] computes it: [r * u / norm]. *)
Definition on_ray (r : R) (u : vec) : vec :=
  (fst (vscale r u) / sqrt (fst u ^ 2 + snd u ^ 2),
   snd (vscale r u) / sqrt (fst u ^ 2 + snd u ^ 2)).

(** The object [reset] leaves when [_reset_location] has chosen [loc]. *)
Definition after_reset (loc : vec) (s : env) : env :=
  set_num_steps 0 (set_stop false (set_prev_location loc (set_location loc s))).

(** The point at distance [r] from the origin in direction [theta]. *)
Definition polar (r theta : R) : vec := vscale r (cos theta, sin theta).

(** The quantities [lo], [hi] and [r] of [NavToCenter.fib_disc_init(i, n)]. *)
Definition NavToCenter_lo (s : env) (n : Z) : Z :=
  np_ceil (IZR n * (goal_radius s / world_radius s) ^ 2).

Definition NavToCenter_hi (s : env) (n : Z) : Z :=
  np_ceil (IZR n / (1 - (goal_radius s / world_radius s) ^ 2)).

Definition NavToCenter_radius (s : env) (i n : Z) : R :=
  sqrt (IZR (i + NavToCenter_lo s n) / IZR (NavToCenter_hi s n)).

(** The quantity [r] of [NavToEdges.fib_disc_init(i, n)]. *)
Definition NavToEdges_radius (s : env) (i n : Z) : R :=
  sqrt (IZR i / IZR n) * world_radius s / world_scale s.

(** The point [fib_disc_init(i, n)] computes for the agent. *)
Definition placement (s : env) (i n : Z) : vec :=
  polar (match kind s with
         | IsNavToCenter => NavToCenter_radius s i n
         | IsNavToEdges => NavToEdges_radius s i n
         end)
        (IZR i * GOLDEN_ANGLE).

(** ** Sample objects *)



Definition center_env : env :=
  Navigation_object IsNavToCenter 2 true 1 2 (5 / 2) 1 false (py_int (2 * (5 / 2))).

Definition edges_env : env :=
  Navigation_object IsNavToEdges 1 false 1 2 (5 / 2) 2 false (py_int (1 * (5 / 2))).

(** [center_env] after a [reset] that put the agent at [(0.9, 0)], outside
    the goal disc of radius [0.5]. *)
Definition center_away : env := after_reset (9 / 10, 0) center_env.

(** ** The rest of the module *)


(** The quantity whose increase [_get_shaped_reward] pays for: the distance
    to the origin, counted negatively for [NavToCenter], and for a biased
    [NavToEdges] the distance of the first coordinate alone. *)
Definition potential (s : env) (v : vec) : R :=
  match kind s with
  | IsNavToCenter => - get_norm v
  | IsNavToEdges =>
      if biased_reward_shaping s then get_norm0 (fst v) else get_norm v
  end.

(** The value recorded under ["at_goal"] in a step's [info]. *)
Definition at_goal_flag (r : step_result) : bool :=
  match lookup "at_goal" (info r) with
  | Some b => b
  | None => false
  end.

(** The rewards of a run of steps, added up. *)
Fixpoint total_reward (rs : list step_result) : R :=
  match rs with
  | [] => 0
  | r :: rest => reward r + total_reward rest
  end.

(** Whether the last step of a run reported [done] with the goal reached. *)
Fixpoint ended_at_goal (rs : list step_result) : bool :=
  match rs with
  | [] => false
  | [r] => done r && at_goal_flag r
  | _ :: rest => ended_at_goal rest
  end.

(** ** The evaluation sweep of [nav_to_center/run.py]

    [collect_metrics] builds a [NavToCenter] object, computes [lo] and [hi]
    from it and from [eval_steps], and for [i] in [range(lo, hi)] calls
    [reset()] and [fib_disc_init(i, hi)] before it runs an episode. *)




(** ** More sample objects *)


(** [NavToEdges(is_eval=False, goal_radius=1.0, world_radius=2.0,
    max_step_scale=2.5, sparsity=2.0, biased_reward_shaping=True)], freshly
    built. *)
Definition edges_biased : env :=
  Navigation_object IsNavToEdges 1 false 1 2 (5 / 2) 2 true (py_int (1 * (5 / 2))).

(** ** Configurations of [run.py]

    A configuration is an [argparse.Namespace]: a bag of named attributes.
    [patch_old_configs] writes into the object it is given and returns that
    same object; the embedding returns the patched bag. *)

Inductive pyval : Type :=
| PyNone
| PyBool (b : bool)
| PyInt (n : Z)
| PyFloat (x : R)
| PyStr (s : string)
| PyObject (id : nat).            (* any other value: a class, a list, ... *)

Definition namespace : Type := string -> option pyval.

Definition hasattr (cfg : namespace) (name : string) : bool :=
  match cfg name with Some _ => true | None => false end.

Definition setattr (cfg : namespace) (name : string) (v : pyval) : namespace :=
  fun k => if String.eqb k name then Some v else cfg k.

(** [if not hasattr(cfg, probe): cfg.<name> = v] *)
Definition set_if_absent (probe name : string) (v : pyval) (cfg : namespace) : namespace :=
  if hasattr cfg probe then cfg else setattr cfg name v.

Definition patch_old_configs (cfg : namespace) : namespace :=
  let cfg := set_if_absent "init_model_path" "init_model_path" PyNone cfg in
  let cfg := set_if_absent "env_shape" "obs_type" (PyStr "square") cfg in
  let cfg := set_if_absent "obs_type" "obs_type" (PyStr "vector") cfg in
  let cfg := set_if_absent "policy_activation" "policy_activation" (PyStr "tanh") cfg in
  let cfg := set_if_absent "bottleneck_temperature" "action_noise" (PyFloat 0) cfg in
  let cfg := set_if_absent "bottleneck_temperature" "bottleneck_temperature" (PyFloat 1) cfg in
  let cfg := set_if_absent "reward_structure" "reward_structure" (PyStr "proximity") cfg in
  let cfg := set_if_absent "n_proc_alg" "n_proc_alg" (PyInt 1) cfg in
  let cfg := set_if_absent "discrete_action" "discrete_action" (PyBool false) cfg in
  cfg.

(** The attributes [make_env_kwargs] reads, in the order it reads them, each
    with the keyword it is passed on as. *)
Definition env_kwargs_fields : list (string * string) :=
  [("env_shape", "env_shape"); ("obs_type", "obs_type");
   ("action_noise", "action_noise"); ("reward_structure", "reward_structure");
   ("discrete_action", "discrete_action"); ("pixel_space", "pixel_space");
   ("lsize", "env_lsize"); ("single_step", "single_step");
   ("action_scale", "action_scale"); ("max_step_scale", "max_step_scale")]%string.

(** Reading attributes into a dictionary; [inl name] is the [AttributeError]
    for the first attribute that is missing. *)
Fixpoint read_fields (fields : list (string * string)) (cfg : namespace)
  : string + list (string * pyval) :=
  match fields with
  | [] => inr []
  | (key, attr) :: rest =>
      match cfg attr with
      | None => inl attr
      | Some v =>
          match read_fields rest cfg with
          | inl e => inl e
          | inr d => inr ((key, v) :: d)
          end
      end
  end.

Definition make_env_kwargs (cfg : namespace) : string + list (string * pyval) :=
  read_fields env_kwargs_fields cfg.

(** An old configuration: everything [make_env_kwargs] reads except
    [env_shape], with [obs_type = "direction"]. *)
Definition old_cfg : namespace :=
  fun k =>
    if String.eqb k "obs_type" then Some (PyStr "direction")
    else if String.eqb k "action_noise" then Some (PyFloat (1 / 2))
    else if String.eqb k "reward_structure" then Some (PyStr "proximity")
    else if String.eqb k "discrete_action" then Some (PyBool false)
    else if String.eqb k "pixel_space" then Some (PyBool false)
    else if String.eqb k "env_lsize" then Some (PyInt 8)
    else if String.eqb k "single_step" then Some (PyBool false)
    else if String.eqb k "action_scale" then Some (PyInt 16)
    else if String.eqb k "max_step_scale" then Some (PyFloat (9 / 2))
    else None.

(** A current configuration: [old_cfg] with [env_shape = "circle"]. *)
Definition new_cfg : namespace := setattr old_cfg "env_shape" (PyStr "circle").

(** ** The lexicon map of [run.py]

    [get_lexicon_map] fills an integer matrix [m] of shape
    [(n_divs + 1, n_divs + 1)] and prints a grid of [2 * n_divs - 1] rows and
    columns in which [is_border] decides where to draw a wall. *)

(** A two-dimensional integer array: its shape and its entries. *)
Record ndarray2 : Type := mkNdarray2 {
  nrows : Z;
  ncols : Z;
  entry : Z -> Z -> Z
}.

(** [m[a, b]] for Python integers [a] and [b]: an index below zero counts
    from the end, an index out of range raises [IndexError] ([None]). *)
Definition np_getitem2 (m : ndarray2) (a b : Z) : option Z :=
  if ((- nrows m <=? a) && (a <? nrows m) && (- ncols m <=? b) && (b <? ncols m))%Z
  then Some (entry m (a mod nrows m) (b mod ncols m))%Z
  else None.

(** [x != y] on two subscripted values, the left one evaluated first. *)
Definition differ (x y : option Z) : option bool :=
  match x, y with
  | Some a, Some b => Some (negb (a =? b)%Z)
  | _, _ => None
  end.

(** [is_border(m, i, j)]; [None] is an [IndexError]. *)
Definition is_border (m : ndarray2) (i j : Z) : option bool :=
  let second :=
    if (j mod 2 =? 0)%Z then Some false
    else differ (np_getitem2 m (i / 2) ((j - 1) / 2))
                (np_getitem2 m (i / 2) ((j + 1) / 2)) in
  if (i mod 2 =? 0)%Z then second
  else
    match differ (np_getitem2 m ((i - 1) / 2) (j / 2))
                 (np_getitem2 m ((i + 1) / 2) (j / 2)) with
    | None => None
    | Some true => Some true
    | Some false => second
    end.

(** A 3 x 3 map with two regions, [0] in the first column and [1] elsewhere. *)
Definition two_regions : ndarray2 :=
  mkNdarray2 3 3 (fun _ b => if (b =? 0)%Z then 0%Z else 1%Z).

(** ** Proof steps shared by the method lemmas *)

(** Unfold a method call down to the monad operations. *)
Ltac run_all :=
  unfold reset, fib_disc_init, NavToCenter.fib_disc_init, NavToEdges.fib_disc_init,
    _reset_location, NavToCenter._reset_location, NavToEdges._reset_location,
    NavToCenter._at_goal, NavToEdges._at_goal, get_observation,
    bind, get, py, np, raise, ret, modify.

Ltac split_cases :=
  repeat match goal with
    | |- context [match kind ?s with _ => _ end] => destruct (kind s)
    | |- context [match py_truediv ?a ?b with _ => _ end] => destruct (py_truediv a b)
    | |- context [match np_sqrt ?a with _ => _ end] => destruct (np_sqrt a)
    | |- context [match np_divide ?a ?b with _ => _ end] => destruct (np_divide a b)
    | |- context [match vdivide ?a ?b with _ => _ end] => destruct (vdivide a b)
    | |- context [if Rleb ?a ?b then _ else _] => destruct (Rleb a b)
    end.

(** * Properties *)

(** ** Evaluating decisions on reals *)

Lemma Rleb_true x y : x <= y -> Rleb x y = true.
Proof. intros H. unfold Rleb. destruct (Rle_dec x y); [reflexivity | contradiction]. Qed.

Lemma Rleb_false x y : y < x -> Rleb x y = false.
Proof. intros H. unfold Rleb. destruct (Rle_dec x y); [lra | reflexivity]. Qed.


Lemma Rltb_false x y : y <= x -> Rltb x y = false.
Proof. intros H. unfold Rltb. destruct (Rlt_dec x y); [lra | reflexivity]. Qed.

Lemma py_truediv_ok a b : b <> 0 -> py_truediv a b = inr (a / b).
Proof. intros H. unfold py_truediv. destruct (Req_dec_T b 0); [contradiction | reflexivity]. Qed.


Lemma np_divide_ok a b : b <> 0 -> np_divide a b = Some (a / b).
Proof. intros H. unfold np_divide. destruct (Req_dec_T b 0); [contradiction | reflexivity]. Qed.

Lemma np_sqrt_ok x : 0 <= x -> np_sqrt x = Some (sqrt x).
Proof. intros H. unfold np_sqrt. destruct (Rlt_dec x 0); [lra | reflexivity]. Qed.

Lemma vdivide_ok a d : d <> 0 -> vdivide a d = Some (fst a / d, snd a / d).
Proof. intros H. unfold vdivide. rewrite !np_divide_ok by assumption. reflexivity. Qed.

Lemma py_int_nonneg x : 0 <= x -> py_int x = Zfloor x.
Proof. intros H. unfold py_int. destruct (Rle_dec 0 x); [reflexivity | contradiction]. Qed.

(** Below zero [int] and [floor] part ways: [int(-0.5)] is [0]. *)
Lemma py_int_negative_half : py_int (- (1 / 2)) = 0%Z /\ Zfloor (- (1 / 2)) = (-1)%Z.
Proof.
  split.
  - unfold py_int. destruct (Rle_dec 0 (- (1 / 2))); [lra |]. apply Zceil_eq. lra.
  - apply Zfloor_eq. lra.
Qed.

(** The norm of a point given in polar form. *)
Lemma get_norm_polar r theta : 0 <= r -> get_norm (vscale r (cos theta, sin theta)) = r.
Proof.
  intros Hr. unfold get_norm, vscale. cbn [fst snd].
  replace ((r * cos theta) ^ 2 + (r * sin theta) ^ 2)
    with (r ^ 2 * (Rsqr (sin theta) + Rsqr (cos theta))) by (unfold Rsqr; ring).
  rewrite sin2_cos2, Rmult_1_r. apply sqrt_pow2; assumption.
Qed.

Lemma get_norm_nonneg v : 0 <= get_norm v.
Proof. apply sqrt_pos. Qed.

(** ** The abstract methods read the object and leave it as it is *)

Lemma _at_goal_cases s :
  (exists g, _at_goal s = Ok g s) \/ _at_goal s = Raise ZeroDivisionError s.
Proof.
  unfold _at_goal, bind, get. destruct (kind s).
  - unfold NavToCenter._at_goal, bind, get, py, py_truediv, ret.
    destruct (Req_dec_T (world_scale s) 0); [right; reflexivity | left; eexists; reflexivity].
  - left. eexists. reflexivity.
Qed.

Lemma _at_goal_Ok s g s' : _at_goal s = Ok g s' -> s' = s.
Proof.
  intros H. destruct (_at_goal_cases s) as [[g' E] | E]; rewrite E in H; congruence.
Qed.

Lemma _get_shaped_reward_Ok s : exists r, _get_shaped_reward s = Ok r s.
Proof.
  unfold _get_shaped_reward, bind, get. destruct (kind s); eexists; reflexivity.
Qed.

Lemma _at_goal_same_place s1 s2 g :
  same_place s1 s2 -> _at_goal s1 = Ok g s1 -> _at_goal s2 = Ok g s2.
Proof.
  intros (Hk & Hg & Hw & Hl). unfold _at_goal, bind, get. rewrite <- Hk.
  destruct (kind s1).
  - unfold NavToCenter._at_goal, bind, get, py, py_truediv, ret.
    rewrite <- Hg, <- Hw, <- Hl.
    destruct (Req_dec_T (world_scale s1) 0); congruence.
  - unfold NavToEdges._at_goal, bind, get, ret. rewrite <- Hl. congruence.
Qed.

(** ** [step], one piece at a time *)

Lemma step_stopped s a : stop s = true -> step a s = Raise StoppedException s.
Proof. intros H. unfold step, bind, get. rewrite H. reflexivity. Qed.

Lemma step_running s a :
  stop s = false ->
  step a s = (_take_action a ;;; _get_step_result a) (begin_step s).
Proof. intros H. unfold step, bind, get. rewrite H. reflexivity. Qed.

Lemma _take_action_malformed a e s :
  action_error a = Some e -> _take_action a s = Raise e s.
Proof.
  destruct a as [dt data | hs]; cbn [action_error _take_action].
  - destruct dt; destruct data as [| x [| y [| z data]]];
      intros H; inversion H; subst; try reflexivity.
    unfold bind, get, idivide, raise, ret.
    destruct (Rltb 1 (get_norm (x, y))); reflexivity.
  - intros H. inversion H. reflexivity.
Qed.

(** [_take_action] touches [location] only. *)
Lemma _take_action_Ok a u s s' :
  _take_action a s = Ok u s' -> exists v, s' = set_location v s.
Proof.
  destruct a as [dt data | hs]; cbn [_take_action]; [| discriminate].
  destruct data as [| x [| y [| z data]]]; try discriminate.
  unfold bind, get, idivide, raise, ret, np, modify.
  destruct dt.
  - destruct (Rltb 1 (get_norm (x, y))).
    + destruct (vdivide (x, y) (get_norm (x, y))) as [a1 |]; [| discriminate].
      destruct (vdivide a1 (world_scale s)) as [a2 |]; [| discriminate].
      intros H. inversion H. eexists. reflexivity.
    + destruct (vdivide (x, y) (world_scale s)) as [a2 |]; [| discriminate].
      intros H. inversion H. eexists. reflexivity.
  - destruct (Rltb 1 (get_norm (x, y))); discriminate.
Qed.

Lemma _get_step_result_Ok a s r s' :
  _get_step_result a s = Ok r s' ->
  exists g,
    _at_goal s = Ok g s /\
    s' = settled g s /\
    observation r = location s /\
    done r = stop s' /\
    info r = [("at_goal"%string, g)] /\
    (is_eval s = true -> reward r = float_of_bool g) /\
    (is_eval s = false ->
     exists shaped, _get_shaped_reward s' = Ok shaped s' /\
       sparsity s <> 0 /\
       reward r = 0 + shaped / sparsity s + (if done r && g then 1 else 0)).
Proof.
  unfold _get_step_result, get_observation. unfold bind at 1 2. unfold get at 1, ret at 1.
  unfold bind at 1.
  destruct (_at_goal_cases s) as [[g E] | E]; rewrite E; [| discriminate].
  unfold bind at 1. unfold get at 1. unfold bind at 1. fold (stops s g).
  set (s1 := settled g s).
  assert (E1 : (if stops s g then modify (set_stop true) else ret tt) s = Ok tt s1)
    by (unfold s1, settled; destruct (stops s g); reflexivity).
  rewrite E1. unfold bind at 1. unfold get at 1.
  assert (Hev : is_eval s1 = is_eval s)
    by (unfold s1, settled; destruct (stops s g); reflexivity).
  assert (Hsp : sparsity s1 = sparsity s)
    by (unfold s1, settled; destruct (stops s g); reflexivity).
  rewrite Hev, Hsp.
  destruct (is_eval s) eqn:Eev.
  - unfold ret. intros H. inversion H; subst. exists g. cbn [observation done info reward].
    repeat split; try reflexivity. discriminate.
  - unfold bind at 1. destruct (_get_shaped_reward_Ok s1) as [sh Esh]. rewrite Esh.
    unfold bind, np, np_divide, ret.
    destruct (Req_dec_T (sparsity s) 0) as [Z | NZ]; [discriminate |].
    intros H. inversion H; subst. exists g. cbn [observation done info reward].
    repeat split; try reflexivity; try discriminate.
    intros _. exists sh. repeat split; try assumption.
    match goal with |- context [if ?b then _ else _] => destruct b end; lra.
Qed.

(** ** [fib_disc_init] and [reset], by their effect on the object *)

Lemma fib_disc_init_Ok i n s v s' :
  fib_disc_init i n s = Ok v s' -> s' = set_location v s.
Proof.
  run_all. split_cases; intros H; inversion H; reflexivity.
Qed.


Lemma reset_Ok u t s v s' :
  reset u t s = Ok v s' -> stop s' = false /\ num_steps s' = 0%Z.
Proof.
  run_all. split_cases; intros H; inversion H; split; reflexivity.
Qed.




Lemma step_Ok_running a s r s' : step a s = Ok r s' -> stop s = false.
Proof.
  intros H. destruct (stop s) eqn:E; [| reflexivity].
  rewrite (step_stopped _ _ E) in H. discriminate.
Qed.

(** A [step] that returns: what it did, in terms of the object [s1] that
    holds the new position. *)
Lemma step_Ok a s r s' :
  step a s = Ok r s' ->
  exists v g,
    let s1 := set_location v (begin_step s) in
    stop s = false /\
    _take_action a (begin_step s) = Ok tt s1 /\
    _get_step_result a s1 = Ok r s' /\
    _at_goal s1 = Ok g s1 /\
    s' = settled g s1 /\
    done r = stops s1 g /\
    info r = [("at_goal"%string, g)].
Proof.
  intros H. pose proof (step_Ok_running _ _ _ _ H) as Hs.
  rewrite (step_running _ _ Hs) in H. unfold bind at 1 in H.
  destruct (_take_action a (begin_step s)) as [[] s1 | |] eqn:Ea; try discriminate.
  destruct (_take_action_Ok _ _ _ _ Ea) as [v ->].
  destruct (_get_step_result_Ok _ _ _ _ H) as (g & Hg & Hs' & _ & Hd & Hi & _).
  exists v, g. cbn zeta. repeat split; try assumption.
  rewrite Hd, Hs'. unfold settled. destruct (stops (set_location v (begin_step s)) g) eqn:E.
  - reflexivity.
  - cbn [stop set_location begin_step set_prev_location set_num_steps]. exact Hs.
Qed.

(** ** Float actions: [step] returns *)

Lemma _take_action_float s x y :
  world_scale s <> 0 ->
  _take_action (Ndarray1 Float [x; y]) s =
  Ok tt (set_location (vadd (location s) (displacement (world_scale s) (x, y))) s).
Proof.
  intros Hw. cbn [_take_action]. unfold bind, get, idivide, ret, np, modify.
  unfold displacement, clip.
  destruct (Rltb 1 (get_norm (x, y))) eqn:E.
  - assert (Hn : get_norm (x, y) <> 0).
    { unfold Rltb in E. destruct (Rlt_dec 1 (get_norm (x, y))); [lra | discriminate]. }
    rewrite (vdivide_ok _ _ Hn). rewrite (vdivide_ok _ _ Hw). reflexivity.
  - rewrite (vdivide_ok _ _ Hw). reflexivity.
Qed.

Lemma _take_action_float_zero_scale s x y :
  world_scale s = 0 -> _take_action (Ndarray1 Float [x; y]) s = NonReal.
Proof.
  intros Hw. cbn [_take_action]. unfold bind, get, idivide, ret, np, modify.
  assert (Z : forall a, vdivide a (world_scale s) = None).
  { intros a. unfold vdivide, np_divide. rewrite Hw.
    destruct (Req_dec_T 0 0); [reflexivity | contradiction]. }
  destruct (Rltb 1 (get_norm (x, y))).
  - destruct (vdivide (x, y) (get_norm (x, y))); [rewrite Z |]; reflexivity.
  - rewrite Z. reflexivity.
Qed.

Lemma settled_same_place g s : same_place s (settled g s).
Proof. unfold settled. destruct (stops s g); repeat split. Qed.

Lemma _get_step_result_returns a s g :
  _at_goal s = Ok g s ->
  (is_eval s = false -> sparsity s <> 0) ->
  exists r, _get_step_result a s = Ok r (settled g s) /\ done r = stop (settled g s).
Proof.
  intros Hg Hsp.
  unfold _get_step_result, get_observation. unfold bind at 1 2. unfold get at 1, ret at 1.
  unfold bind at 1. rewrite Hg.
  unfold bind at 1. unfold get at 1. unfold bind at 1. fold (stops s g).
  assert (E1 : (if stops s g then modify (set_stop true) else ret tt) s = Ok tt (settled g s))
    by (unfold settled; destruct (stops s g); reflexivity).
  rewrite E1. unfold bind at 1. unfold get at 1.
  assert (Hev : is_eval (settled g s) = is_eval s)
    by (unfold settled; destruct (stops s g); reflexivity).
  assert (Hsp' : sparsity (settled g s) = sparsity s)
    by (unfold settled; destruct (stops s g); reflexivity).
  rewrite Hev, Hsp'.
  destruct (is_eval s).
  - eexists. split; reflexivity.
  - unfold bind at 1. destruct (_get_shaped_reward_Ok (settled g s)) as [sh Esh]. rewrite Esh.
    unfold bind, np, ret. rewrite (np_divide_ok _ _ (Hsp eq_refl)).
    eexists. split; reflexivity.
Qed.

Lemma step_float_returns s x y g :
  stop s = false ->
  world_scale s <> 0 ->
  _at_goal (moved (x, y) s) = Ok g (moved (x, y) s) ->
  (is_eval s = false -> sparsity s <> 0) ->
  exists r, step (Ndarray1 Float [x; y]) s = Ok r (settled g (moved (x, y) s)) /\
            done r = stops (moved (x, y) s) g.
Proof.
  intros Hs Hw Hg Hsp. rewrite (step_running _ _ Hs). unfold bind at 1.
  rewrite _take_action_float by exact Hw. fold (moved (x, y) s).
  destruct (_get_step_result_returns (Ndarray1 Float [x; y]) _ g Hg Hsp) as (r & Er & Hd).
  exists r. split; [exact Er |]. rewrite Hd. unfold settled.
  destruct (stops (moved (x, y) s) g) eqn:E; [reflexivity | exact Hs].
Qed.

(** ** Action validation comes after the bookkeeping *)

(** C9.  When [step] is called on a running object ([stop] is false) with an
    action that is not a float array of shape [(2,)], the call raises; at that
    moment [num_steps] has been incremented, [prev_location] holds a copy of
    [location], and [location] and [stop] are as before the call. *)
Theorem step_malformed_action_not_atomic s a e :
  stop s = false ->
  action_error a = Some e ->
  exists s',
    step a s = Raise e s' /\
    num_steps s' = (num_steps s + 1)%Z /\
    prev_location s' = location s /\
    location s' = location s /\
    stop s' = stop s.
Proof.
  intros Hs Ha. exists (begin_step s). split.
  - rewrite (step_running _ _ Hs). unfold bind.
    rewrite (_take_action_malformed _ _ _ Ha). reflexivity.
  - repeat split.
Qed.

Lemma step_malformed_action_not_atomic_witness :
  exists s',
    step (Ndarray1 Float [1; 0; 0]) center_env = Raise AssertionError s' /\
    num_steps s' = 1%Z /\
    prev_location s' = (0, 0) /\
    location s' = (0, 0) /\
    stop s' = false.
Proof.
  exact (step_malformed_action_not_atomic center_env (Ndarray1 Float [1; 0; 0])
           AssertionError eq_refl eq_refl).
Defined.

(** ** [fib_disc_init] writes [location] and nothing else *)

(** C10.  For both variants, a [fib_disc_init] call that returns has changed
    the [location] field only: the object is the old one with the returned
    observation stored in [location]; [prev_location], [num_steps], [stop]
    and every configuration field are as before.  [prev_location] is not
    brought in line with the new position. *)
Theorem fib_disc_init_frame i n s v s' :
  fib_disc_init i n s = Ok v s' ->
  s' = set_location v s /\
  location s' = v /\
  prev_location s' = prev_location s /\
  num_steps s' = num_steps s /\
  stop s' = stop s /\
  max_steps s' = max_steps s /\
  kind s' = kind s /\
  goal_radius s' = goal_radius s /\
  world_radius s' = world_radius s /\
  world_scale s' = world_scale s /\
  is_eval s' = is_eval s /\
  max_step_scale s' = max_step_scale s /\
  sparsity s' = sparsity s /\
  biased_reward_shaping s' = biased_reward_shaping s.
Proof.
  intros H. rewrite (fib_disc_init_Ok _ _ _ _ _ H). repeat split.
Qed.

(** ** Termination is final until [reset] *)


(** ** The reward rule *)

(** C5.  For every [step] that returns: [info["at_goal"]] is the value of
    [_at_goal()] after the action.  In evaluation mode the reward is 1.0 when
    that value is true and 0.0 otherwise.  In training mode the reward is
    [_get_shaped_reward() / sparsity], plus 1.0 exactly when the step returns
    [done = True] with the goal reached; a step that ends the episode on the
    step budget without the goal reached gets no bonus. *)
Theorem step_reward_rule a s r s' :
  step a s = Ok r s' ->
  exists g,
    _at_goal s' = Ok g s' /\
    lookup "at_goal" (info r) = Some g /\
    (is_eval s = true -> reward r = if g then 1 else 0) /\
    (is_eval s = false ->
     exists shaped,
       _get_shaped_reward s' = Ok shaped s' /\
       reward r = shaped / sparsity s + (if done r && g then 1 else 0) /\
       (done r = true -> g = false -> reward r = shaped / sparsity s)).
Proof.
  intros H.
  destruct (step_Ok _ _ _ _ H) as (v & g & Hs & _ & Hres & Hg & Hs' & _ & Hi).
  cbn zeta in *.
  destruct (_get_step_result_Ok _ _ _ _ Hres) as (g' & Hg' & _ & _ & _ & _ & Hev & Htr).
  assert (g' = g) by congruence. subst g'.
  exists g. split.
  - rewrite Hs'. apply (_at_goal_same_place _ _ _ (settled_same_place _ _) Hg).
  - split; [rewrite Hi; reflexivity |]. split.
    + intros E. rewrite (Hev E). reflexivity.
    + intros E. destruct (Htr E) as (sh & Hsh & _ & Hr). exists sh.
      cbn [sparsity set_location begin_step set_prev_location set_num_steps] in Hr.
      split; [exact Hsh |]. split.
      * rewrite Hr. lra.
      * intros Hd Hgf. rewrite Hr, Hd, Hgf. cbn. lra.
Qed.

(** ** Construction *)
















(** ** No method writes the configuration *)

Lemma _take_action_Raise a e s s' : _take_action a s = Raise e s' -> s' = s.
Proof.
  destruct a as [dt data | hs]; cbn [_take_action].
  - destruct data as [| x [| y [| z data]]];
      try (unfold raise; intros H; inversion H; reflexivity).
    unfold bind, get, idivide, raise, ret, np, modify.
    destruct dt; destruct (Rltb 1 (get_norm (x, y)));
      repeat match goal with
        | |- context [match vdivide ?a ?b with _ => _ end] => destruct (vdivide a b)
        end;
      intros H; inversion H; reflexivity.
  - unfold raise. intros H. inversion H. reflexivity.
Qed.

Lemma _get_step_result_Raise a e s s' : _get_step_result a s = Raise e s' -> s' = s.
Proof.
  unfold _get_step_result, get_observation. unfold bind at 1 2. unfold get at 1, ret at 1.
  unfold bind at 1.
  destruct (_at_goal_cases s) as [[g E] | E]; rewrite E;
    [| intros H; inversion H; reflexivity].
  unfold bind at 1. unfold get at 1. unfold bind at 1. fold (stops s g).
  assert (E1 : (if stops s g then modify (set_stop true) else ret tt) s = Ok tt (settled g s))
    by (unfold settled; destruct (stops s g); reflexivity).
  rewrite E1. unfold bind at 1. unfold get at 1.
  destruct (is_eval (settled g s)); [discriminate |].
  unfold bind at 1. destruct (_get_shaped_reward_Ok (settled g s)) as [sh Esh]. rewrite Esh.
  unfold bind, np, ret. destruct (np_divide sh (sparsity (settled g s))); discriminate.
Qed.

Lemma config_settled g s : config (settled g s) = config s.
Proof. unfold settled. destruct (stops s g); reflexivity. Qed.

Lemma step_config a s s' : state_of (step a s) = Some s' -> config s' = config s.
Proof.
  destruct (stop s) eqn:Hs.
  - rewrite (step_stopped _ _ Hs). cbn. intros H. inversion H. reflexivity.
  - rewrite (step_running _ _ Hs). unfold bind at 1.
    destruct (_take_action a (begin_step s)) as [[] s1 | e s1 |] eqn:Ea.
    + destruct (_take_action_Ok _ _ _ _ Ea) as [v ->].
      destruct (_get_step_result a (set_location v (begin_step s))) as [r s2 | e s2 |] eqn:Er;
        cbn; intros H; inversion H; subst.
      * destruct (_get_step_result_Ok _ _ _ _ Er) as (g & _ & -> & _).
        rewrite config_settled. reflexivity.
      * rewrite (_get_step_result_Raise _ _ _ _ Er). reflexivity.
    + cbn. intros H. inversion H; subst.
      rewrite (_take_action_Raise _ _ _ _ Ea). reflexivity.
    + discriminate.
Qed.





(** ** The step budget *)

Lemma step_Ok_summary a s r s' :
  step a s = Ok r s' ->
  exists g,
    lookup "at_goal" (info r) = Some g /\
    num_steps s' = (num_steps s + 1)%Z /\
    max_steps s' = max_steps s /\
    stop s' = done r /\
    done r = ((0 <? num_steps s + 1)%Z && g) || (max_steps s <? num_steps s + 1)%Z.
Proof.
  intros H.
  destruct (step_Ok _ _ _ _ H) as (v & g & Hs & _ & Hres & _ & Hs' & Hd & Hi).
  cbn zeta in *.
  destruct (_get_step_result_Ok _ _ _ _ Hres) as (_ & _ & _ & _ & Hstop & _).
  exists g. split; [rewrite Hi; reflexivity |].
  split; [rewrite Hs'; unfold settled; destruct (stops _ g); reflexivity |].
  split; [rewrite Hs'; unfold settled; destruct (stops _ g); reflexivity |].
  split; [symmetry; exact Hstop |].
  rewrite Hd. reflexivity.
Qed.

(** In a run of returning steps, only the last one can report [done]. *)
Lemma run_steps_not_last actions :
  forall s rs s', run_steps actions s = Some (rs, s') ->
  forall j r, nth_error rs j = Some r -> (S j < List.length rs)%nat -> done r = false.
Proof.
  induction actions as [| a rest IH]; intros s rs s' Hrun j r Hj Hlen.
  - cbn in Hrun. inversion Hrun; subst. destruct j; discriminate.
  - cbn [run_steps] in Hrun.
    destruct (step a s) as [r0 s1 | |] eqn:Ea; try discriminate.
    destruct (run_steps rest s1) as [[rs1 s2] |] eqn:Erest; try discriminate.
    inversion Hrun; subst. destruct j as [| j].
    + cbn in Hj. inversion Hj; subst.
      destruct rest as [| a' rest'].
      * cbn in Erest. inversion Erest; subst. cbn in Hlen. lia.
      * cbn [run_steps] in Erest.
        destruct (step a' s1) as [r1 s3 | |] eqn:Ea'; try discriminate.
        pose proof (step_Ok_running _ _ _ _ Ea') as Hs1.
        destruct (step_Ok_summary _ _ _ _ Ea) as (g & _ & _ & _ & Hst & _).
        congruence.
    + cbn in Hj, Hlen. apply (IH _ _ _ Erest j r Hj). lia.
Qed.




(** *** An episode that exhausts the budget *)

Lemma get_norm_origin : get_norm (0, 0) = 0.
Proof.
  unfold get_norm. cbn [fst snd].
  replace (0 ^ 2 + 0 ^ 2) with 0 by ring. apply sqrt_0.
Qed.

Lemma clip_small a : get_norm a <= 1 -> clip a = a.
Proof. intros H. unfold clip. rewrite (Rltb_false _ _ H). reflexivity. Qed.

Lemma moved_idle s : world_scale s <> 0 -> moved (0, 0) s = begin_step s.
Proof.
  intros Hw. unfold moved, displacement.
  rewrite clip_small by (rewrite get_norm_origin; lra). cbn [fst snd].
  unfold vadd. cbn [fst snd location begin_step set_prev_location set_num_steps].
  replace (fst (location s) + 0 / world_scale s) with (fst (location s)) by (field; exact Hw).
  replace (snd (location s) + 0 / world_scale s) with (snd (location s)) by (field; exact Hw).
  destruct s as [k gr wr ws ev ms sp b mx n st [lx ly] pl]. reflexivity.
Qed.

Lemma NavToEdges_at_goal s :
  kind s = IsNavToEdges -> _at_goal s = Ok (Rleb 1 (get_norm (location s))) s.
Proof. intros Hk. unfold _at_goal, bind, get. rewrite Hk. reflexivity. Qed.

Lemma NavToCenter_at_goal s :
  kind s = IsNavToCenter -> world_scale s <> 0 ->
  _at_goal s = Ok (Rleb (get_norm (location s)) (goal_radius s / world_scale s)) s.
Proof.
  intros Hk Hw. unfold _at_goal, bind, get. rewrite Hk.
  unfold NavToCenter._at_goal, bind, get, py, ret. rewrite (py_truediv_ok _ _ Hw). reflexivity.
Qed.

Lemma step_idle s :
  kind s = IsNavToEdges -> stop s = false -> world_scale s <> 0 ->
  (is_eval s = false -> sparsity s <> 0) ->
  get_norm (location s) < 1 ->
  exists r,
    step idle s = Ok r (settled false (begin_step s)) /\
    lookup "at_goal" (info r) = Some false.
Proof.
  intros Hk Hs Hw Hsp Hloc.
  assert (Hg : _at_goal (moved (0, 0) s) = Ok false (moved (0, 0) s)).
  { rewrite (moved_idle _ Hw). rewrite NavToEdges_at_goal by exact Hk.
    cbn [location begin_step set_prev_location set_num_steps].
    rewrite (Rleb_false _ _ Hloc). reflexivity. }
  destruct (step_float_returns s 0 0 false Hs Hw Hg Hsp) as (r & Er & _).
  exists r. rewrite (moved_idle _ Hw) in Er. split; [exact Er |].
  destruct (step_Ok _ _ _ _ Er) as (v & g & _ & Hta & _ & Hg' & _ & _ & Hi).
  cbn zeta in *. unfold idle in Hta.
  rewrite _take_action_float in Hta by exact Hw. fold (moved (0, 0) s) in Hta.
  inversion Hta as [Hm]. rewrite <- Hm in Hg'.
  change (_at_goal (moved (0, 0) s) = Ok g (moved (0, 0) s)) in Hg'.
  assert (g = false) by congruence. subst g. rewrite Hi. reflexivity.
Qed.

(** A [NavToEdges] agent that stays where it is, inside the world, can take
    every step the budget allows and one more. *)
Lemma idle_episode n :
  forall s,
    kind s = IsNavToEdges -> world_scale s <> 0 ->
    (is_eval s = false -> sparsity s <> 0) ->
    get_norm (location s) < 1 ->
    ((0 < n)%nat -> stop s = false) ->
    (num_steps s + Z.of_nat n <= max_steps s + 1)%Z ->
    exists rs s',
      run_steps (repeat idle n) s = Some (rs, s') /\
      forall r, In r rs -> lookup "at_goal" (info r) = Some false.
Proof.
  induction n as [| n IH]; intros s Hk Hw Hsp Hloc Hs Hn.
  - exists [], s. split; [reflexivity |]. intros r [].
  - destruct (step_idle s Hk (Hs (Nat.lt_0_succ n)) Hw Hsp Hloc) as (r & Er & Hi).
    set (s1 := settled false (begin_step s)) in *.
    assert (Hc : config s1 = config (begin_step s)) by apply config_settled.
    unfold config in Hc. cbn [kind goal_radius world_radius world_scale is_eval
      max_step_scale sparsity biased_reward_shaping max_steps
      begin_step set_prev_location set_num_steps] in Hc.
    assert (Hl1 : location s1 = location s)
      by (unfold s1, settled; destruct (stops _ false); reflexivity).
    assert (Hn1 : num_steps s1 = (num_steps s + 1)%Z)
      by (unfold s1, settled; destruct (stops _ false); reflexivity).
    assert (Hm1 : max_steps s1 = max_steps s) by congruence.
    destruct (IH s1) as (rs & s' & Hrun & Hgoal).
    + congruence.
    + replace (world_scale s1) with (world_scale s) by congruence. exact Hw.
    + replace (is_eval s1) with (is_eval s) by congruence.
      replace (sparsity s1) with (sparsity s) by congruence. exact Hsp.
    + rewrite Hl1. exact Hloc.
    + intros Hpos. unfold s1, settled.
      assert (E : stops (begin_step s) false = false).
      { unfold stops. rewrite andb_false_r. cbn [orb].
        cbn [num_steps max_steps begin_step set_prev_location set_num_steps].
        apply Z.ltb_ge. lia. }
      rewrite E. cbn [stop begin_step set_prev_location set_num_steps].
      exact (Hs (Nat.lt_0_succ n)).
    + rewrite Hn1, Hm1. lia.
    + exists (r :: rs), s'. split.
      * cbn [repeat run_steps]. rewrite Er, Hrun. reflexivity.
      * intros r' [<- | Hin]; [exact Hi | exact (Hgoal r' Hin)].
Qed.

Lemma edges_env_budget : Zfloor (world_scale edges_env * max_step_scale edges_env) = 2%Z.
Proof.
  cbn [world_scale max_step_scale edges_env Navigation_object].
  apply Zfloor_eq. lra.
Qed.


(** ** Clipping of actions *)

Lemma get_norm_scale k x y : 0 <= k -> get_norm (k * x, k * y) = k * get_norm (x, y).
Proof.
  intros Hk. unfold get_norm. cbn [fst snd].
  replace ((k * x) ^ 2 + (k * y) ^ 2) with (k ^ 2 * (x ^ 2 + y ^ 2)) by ring.
  rewrite sqrt_mult; [| nra | nra]. rewrite (sqrt_pow2 _ Hk). reflexivity.
Qed.

Lemma get_norm_unit x y :
  0 < get_norm (x, y) -> get_norm (x / get_norm (x, y), y / get_norm (x, y)) = 1.
Proof.
  intros Hn. set (n := get_norm (x, y)) in *.
  replace (x / n) with (/ n * x) by (field; lra).
  replace (y / n) with (/ n * y) by (field; lra).
  rewrite get_norm_scale.
  - fold n. field. lra.
  - left. apply Rinv_0_lt_compat. exact Hn.
Qed.




(** ** Where [reset] puts a [NavToCenter] agent *)

Lemma norm_nonzero (u : vec) : u <> (0, 0) -> sqrt (fst u ^ 2 + snd u ^ 2) <> 0.
Proof.
  intros Hu Hz. apply sqrt_eq_0 in Hz; [| nra].
  apply Hu. destruct u as [a b]. cbn [fst snd] in Hz.
  assert (a = 0) by nra. assert (b = 0) by nra. subst. reflexivity.
Qed.

(** For a [NavToCenter] object, [reset] with the draws [u] and [t] returns
    with the agent at distance [sqrt(g^2 + (1 - g^2) * t)] from the origin. *)
Lemma NavToCenter_reset s u t :
  kind s = IsNavToCenter ->
  world_scale s <> 0 ->
  u <> (0, 0) ->
  0 <= rng_uniform ((goal_radius s / world_scale s) ^ 2) 1 t ->
  let r := sqrt (rng_uniform ((goal_radius s / world_scale s) ^ 2) 1 t) in
  reset u t s = Ok (on_ray r u) (after_reset (on_ray r u) s) /\
  get_norm (on_ray r u) = r.
Proof.
  intros Hk Hw Hu Hx.
  set (x := rng_uniform ((goal_radius s / world_scale s) ^ 2) 1 t) in *.
  intros r. unfold on_ray.
  set (n := sqrt (fst u ^ 2 + snd u ^ 2)).
  assert (Hn : n <> 0) by (apply norm_nonzero; exact Hu).
  split.
  - assert (E : _reset_location u t s =
                Ok tt (set_prev_location
                         (fst (vscale r u) / n, snd (vscale r u) / n)
                         (set_location
                            (fst (vscale r u) / n, snd (vscale r u) / n) s))).
    { unfold _reset_location, bind, get. rewrite Hk.
      unfold NavToCenter._reset_location, bind, get, py, np, modify.
      rewrite (py_truediv_ok _ _ Hw). fold x. rewrite (np_sqrt_ok _ Hx).
      fold n. rewrite (vdivide_ok _ _ Hn). reflexivity. }
    unfold reset. unfold bind at 1. rewrite E. reflexivity.
  - unfold vscale. cbn [fst snd].
    replace (r * fst u / n) with (r * (fst u / n)) by (field; exact Hn).
    replace (r * snd u / n) with (r * (snd u / n)) by (field; exact Hn).
    rewrite get_norm_scale by apply sqrt_pos.
    assert (Hpos : 0 < get_norm (fst u, snd u)).
    { pose proof (get_norm_nonneg (fst u, snd u)) as H0. unfold get_norm in *.
      cbn [fst snd] in *. fold n in H0 |- *. lra. }
    pose proof (get_norm_unit (fst u) (snd u) Hpos) as H1.
    change (get_norm (fst u, snd u)) with n in H1. rewrite H1. ring.
Qed.





(** [center_away] is what [reset] makes of the freshly built [center_env]
    for the draws [u = (1, 0)] and [t = 56/75]. *)
Lemma center_away_is_reset :
  reset (1, 0) (56 / 75) center_env = Ok (9 / 10, 0) center_away.
Proof.
  assert (Hw : world_scale center_env <> 0)
    by (cbn [world_scale center_env Navigation_object]; lra).
  assert (Hu : (1, 0) <> (0, 0)) by (intros H; inversion H; lra).
  assert (Hx : rng_uniform ((goal_radius center_env / world_scale center_env) ^ 2) 1 (56 / 75)
               = (9 / 10) * (9 / 10)).
  { unfold rng_uniform. cbn [goal_radius world_scale center_env Navigation_object]. field. }
  destruct (NavToCenter_reset center_env (1, 0) (56 / 75) eq_refl Hw Hu) as (Er & _).
  - rewrite Hx. lra.
  - rewrite Hx in Er. rewrite sqrt_square in Er by lra.
    assert (Hp : on_ray (9 / 10) (1, 0) = (9 / 10, 0)).
    { unfold on_ray, vscale. cbn [fst snd].
      replace (1 ^ 2 + 0 ^ 2) with 1 by ring. rewrite sqrt_1. f_equal; field. }
    rewrite Hp in Er. exact Er.
Qed.

(** ** [fib_disc_init], evaluated *)

Lemma NavToCenter_fib_disc_init_eval s i n g :
  kind s = IsNavToCenter ->
  world_radius s <> 0 ->
  (goal_radius s / world_radius s) ^ 2 <> 1 ->
  NavToCenter_hi s n <> 0%Z ->
  0 <= IZR (i + NavToCenter_lo s n) / IZR (NavToCenter_hi s n) ->
  _at_goal s = Ok g s ->
  fib_disc_init i n s =
  if g then Raise (ValueError i) s
  else Ok (placement s i n) (set_location (placement s i n) s).
Proof.
  intros Hk Hwr Hg Hhi Hx Hgoal.
  assert (Hgoal' : NavToCenter._at_goal s = Ok g s).
  { unfold _at_goal, bind, get in Hgoal. rewrite Hk in Hgoal. exact Hgoal. }
  unfold placement, polar. rewrite Hk.
  unfold fib_disc_init, bind, get. rewrite Hk.
  unfold NavToCenter.fib_disc_init. unfold bind at 1. unfold get at 1.
  unfold bind at 1. unfold py at 1. rewrite (py_truediv_ok _ _ Hwr).
  unfold bind at 1. unfold py at 1. rewrite py_truediv_ok by lra.
  unfold bind at 1. unfold py at 1.
  fold (NavToCenter_lo s n). fold (NavToCenter_hi s n).
  rewrite py_truediv_ok by (apply not_0_IZR; exact Hhi).
  unfold bind at 1. unfold np at 1. rewrite (np_sqrt_ok _ Hx).
  unfold bind at 1. rewrite Hgoal'.
  destruct g; reflexivity.
Qed.

Lemma NavToEdges_fib_disc_init_eval s i n :
  kind s = IsNavToEdges ->
  n <> 0%Z ->
  0 <= IZR i / IZR n ->
  world_scale s <> 0 ->
  fib_disc_init i n s =
  if Rleb 1 (get_norm (location s)) then Raise (ValueError i) s
  else Ok (placement s i n) (set_location (placement s i n) s).
Proof.
  intros Hk Hn Hx Hw.
  unfold placement, polar. rewrite Hk.
  unfold fib_disc_init, bind, get. rewrite Hk.
  unfold NavToEdges.fib_disc_init. unfold bind at 1. unfold get at 1.
  unfold bind at 1. unfold py at 1.
  rewrite py_truediv_ok by (apply not_0_IZR; exact Hn).
  unfold bind at 1. unfold np at 1. rewrite (np_sqrt_ok _ Hx).
  unfold bind at 1. unfold np at 1. rewrite (np_divide_ok _ _ Hw).
  unfold bind at 1. unfold NavToEdges._at_goal, bind, get, ret.
  destruct (Rleb 1 (get_norm (location s))); reflexivity.
Qed.

(** The test that guards the placement is made on the object as the call
    finds it. *)
Lemma fib_disc_init_guard i n s :
  (forall j s', fib_disc_init i n s = Raise (ValueError j) s' ->
     _at_goal s = Ok true s /\ j = i /\ s' = s) /\
  (forall v s', fib_disc_init i n s = Ok v s' -> _at_goal s = Ok false s).
Proof.
  unfold _at_goal. run_all. unfold py_truediv.
  split; intros ? ?;
    repeat match goal with
      | |- context [match kind ?s with _ => _ end] => destruct (kind s)
      | |- context [if Req_dec_T ?a ?b then _ else _] => destruct (Req_dec_T a b)
      | |- context [match np_sqrt ?a with _ => _ end] => destruct (np_sqrt a)
      | |- context [match np_divide ?a ?b with _ => _ end] => destruct (np_divide a b)
      | |- context [if Rleb ?a ?b then _ else _] => destruct (Rleb a b)
      end;
    intros H; inversion H; repeat split; contradiction.
Qed.

Lemma polar_at_goal_center s r theta :
  kind s = IsNavToCenter -> world_scale s <> 0 -> 0 <= r ->
  _at_goal (set_location (polar r theta) s) =
  Ok (Rleb r (goal_radius s / world_scale s)) (set_location (polar r theta) s).
Proof.
  intros Hk Hw Hr. rewrite NavToCenter_at_goal; [| exact Hk | exact Hw].
  cbn [location set_location goal_radius world_scale].
  unfold polar. rewrite (get_norm_polar _ _ Hr). reflexivity.
Qed.

Lemma polar_at_goal_edges s r theta :
  kind s = IsNavToEdges -> 0 <= r ->
  _at_goal (set_location (polar r theta) s) =
  Ok (Rleb 1 r) (set_location (polar r theta) s).
Proof.
  intros Hk Hr. rewrite NavToEdges_at_goal; [| exact Hk].
  cbn [location set_location]. unfold polar. rewrite (get_norm_polar _ _ Hr). reflexivity.
Qed.

(** *** The sample objects, with [g = 1/2] *)

Lemma half_lo_hi s :
  goal_radius s = 1 -> world_radius s = 2 ->
  NavToCenter_lo s 4 = 1%Z /\ NavToCenter_hi s 4 = 6%Z /\
  NavToCenter_lo s 6 = 2%Z /\ NavToCenter_hi s 6 = 8%Z.
Proof.
  intros Hg Hw. unfold NavToCenter_lo, NavToCenter_hi, np_ceil. rewrite Hg, Hw.
  repeat split; apply Zceil_eq; lra.
Qed.

Lemma sqrt_quarter : sqrt (1 / 4) = 1 / 2.
Proof. replace (1 / 4) with (1 / 2 * (1 / 2)) by field. apply sqrt_square. lra. Qed.

Lemma center_env_at_goal : _at_goal center_env = Ok true center_env.
Proof.
  rewrite NavToCenter_at_goal;
    [| reflexivity | cbn [world_scale center_env Navigation_object]; lra].
  cbn [location goal_radius world_scale center_env Navigation_object].
  rewrite get_norm_origin. rewrite Rleb_true by lra. reflexivity.
Qed.

Lemma center_away_at_goal : _at_goal center_away = Ok false center_away.
Proof.
  rewrite NavToCenter_at_goal;
    [| reflexivity | cbn [world_scale center_away center_env after_reset set_num_steps set_stop
      set_prev_location set_location Navigation_object]; lra].
  cbn [location goal_radius world_scale center_away center_env after_reset set_num_steps set_stop
      set_prev_location set_location Navigation_object].
  replace (get_norm (9 / 10, 0)) with (9 / 10).
  - rewrite Rleb_false by lra. reflexivity.
  - unfold get_norm. cbn [fst snd].
    replace ((9 / 10) ^ 2 + 0 ^ 2) with (9 / 10 * (9 / 10)) by field.
    symmetry. apply sqrt_square. lra.
Qed.

Lemma edges_env_radius : NavToEdges_radius edges_env 4 4 = 2.
Proof.
  unfold NavToEdges_radius. cbn [world_radius world_scale edges_env Navigation_object].
  replace (4 / 4) with 1 by field. rewrite sqrt_1. field.
Qed.

Lemma edges_env_fib_disc_init :
  fib_disc_init 4 4 edges_env =
  Ok (placement edges_env 4 4) (set_location (placement edges_env 4 4) edges_env).
Proof.
  rewrite (NavToEdges_fib_disc_init_eval edges_env 4 4).
  - cbn [location edges_env Navigation_object]. rewrite get_norm_origin.
    rewrite Rleb_false by lra. reflexivity.
  - reflexivity.
  - discriminate.
  - lra.
  - cbn [world_scale edges_env Navigation_object]. lra.
Qed.



(** ** The guard of [fib_disc_init] *)

(** C1 (where the code departs from it).  [fib_disc_init] tests [_at_goal()]
    before it stores the computed point, so the test sees the position the
    call found, not the placement.
    - [NavToCenter(goal_radius=1, world_radius=2)] with the agent at
      [(0.9, 0)], outside the goal, as after [reset]: [fib_disc_init(0, 4)]
      returns and puts the agent at radius [sqrt(1/6)], inside the goal disc
      of radius [1/2].
    - The same class, freshly built (agent at the origin, inside the goal):
      [fib_disc_init(3, 4)] raises, although its placement, at radius
      [sqrt(4/6)], is outside the goal disc.
    - [NavToEdges(goal_radius=1, world_radius=2)], freshly built (agent at
      the origin, not at the goal): [fib_disc_init(4, 4)] returns and puts
      the agent at radius [2], where [_at_goal()] is true. *)
Theorem fib_disc_init_guard_reads_old_location :
  (fib_disc_init 0 4 center_away =
   Ok (placement center_away 0 4) (set_location (placement center_away 0 4) center_away) /\
   _at_goal (set_location (placement center_away 0 4) center_away) =
   Ok true (set_location (placement center_away 0 4) center_away)) /\
  (fib_disc_init 3 4 center_env = Raise (ValueError 3) center_env /\
   _at_goal (set_location (placement center_env 3 4) center_env) =
   Ok false (set_location (placement center_env 3 4) center_env)) /\
  (fib_disc_init 4 4 edges_env =
   Ok (placement edges_env 4 4) (set_location (placement edges_env 4 4) edges_env) /\
   _at_goal (set_location (placement edges_env 4 4) edges_env) =
   Ok true (set_location (placement edges_env 4 4) edges_env)).
Proof.
  destruct (half_lo_hi center_env eq_refl eq_refl) as (Hlo & Hhi & _ & _).
  destruct (half_lo_hi center_away eq_refl eq_refl) as (Hlo' & Hhi' & _ & _).
  assert (Hx : IZR (3 + NavToCenter_lo center_env 4) / IZR (NavToCenter_hi center_env 4)
               = 4 / 6).
  { rewrite Hlo, Hhi. reflexivity. }
  assert (Hx' : IZR (0 + NavToCenter_lo center_away 4) / IZR (NavToCenter_hi center_away 4)
                = 1 / 6).
  { rewrite Hlo', Hhi'. reflexivity. }
  split; [| split]; split.
  - rewrite (NavToCenter_fib_disc_init_eval center_away 0 4 false).
    + reflexivity.
    + reflexivity.
    + cbn [world_radius center_away center_env after_reset set_num_steps set_stop
      set_prev_location set_location Navigation_object]. lra.
    + cbn [goal_radius world_radius center_away center_env after_reset set_num_steps set_stop
      set_prev_location set_location Navigation_object]. lra.
    + rewrite Hhi'. discriminate.
    + rewrite Hx'. lra.
    + exact center_away_at_goal.
  - unfold placement. cbn [kind center_away center_env after_reset set_num_steps set_stop
      set_prev_location set_location Navigation_object].
    rewrite polar_at_goal_center;
      [| reflexivity
       | cbn [world_scale center_away center_env after_reset set_num_steps set_stop
      set_prev_location set_location Navigation_object]; lra
       | apply sqrt_pos].
    unfold NavToCenter_radius. rewrite Hx'.
    cbn [goal_radius world_scale center_away center_env after_reset set_num_steps set_stop
      set_prev_location set_location Navigation_object].
    rewrite Rleb_true; [reflexivity |].
    rewrite <- sqrt_quarter. apply sqrt_le_1_alt. lra.
  - rewrite (NavToCenter_fib_disc_init_eval center_env 3 4 true).
    + reflexivity.
    + reflexivity.
    + cbn [world_radius center_env Navigation_object]. lra.
    + cbn [goal_radius world_radius center_env Navigation_object]. lra.
    + rewrite Hhi. discriminate.
    + rewrite Hx. lra.
    + exact center_env_at_goal.
  - unfold placement. cbn [kind center_env Navigation_object].
    rewrite polar_at_goal_center;
      [| reflexivity | cbn [world_scale center_env Navigation_object]; lra | apply sqrt_pos].
    unfold NavToCenter_radius. rewrite Hx.
    cbn [goal_radius world_scale center_env Navigation_object].
    rewrite Rleb_false; [reflexivity |].
    rewrite <- sqrt_quarter. apply sqrt_lt_1; lra.
  - exact edges_env_fib_disc_init.
  - unfold placement. cbn [kind edges_env Navigation_object].
    rewrite polar_at_goal_edges; [| reflexivity | rewrite edges_env_radius; lra].
    rewrite edges_env_radius. rewrite Rleb_true by lra. reflexivity.
Qed.

(** ** The evaluation sweep over [fib_disc_init] *)





(** ** Witnesses on the sample objects *)

Lemma fib_disc_init_frame_witness :
  fib_disc_init 4 4 edges_env =
    Ok (placement edges_env 4 4) (set_location (placement edges_env 4 4) edges_env) /\
  location (set_location (placement edges_env 4 4) edges_env) = placement edges_env 4 4 /\
  prev_location (set_location (placement edges_env 4 4) edges_env) = (0, 0) /\
  num_steps (set_location (placement edges_env 4 4) edges_env) = 0%Z /\
  stop (set_location (placement edges_env 4 4) edges_env) = false /\
  location (set_location (placement edges_env 4 4) edges_env) <>
  prev_location (set_location (placement edges_env 4 4) edges_env).
Proof.
  destruct (fib_disc_init_frame 4 4 edges_env _ _ edges_env_fib_disc_init)
    as (_ & Hl & Hp & Hn & Hs & _).
  split; [exact edges_env_fib_disc_init |].
  split; [exact Hl |]. split; [exact Hp |]. split; [exact Hn |]. split; [exact Hs |].
  intros E. change (placement edges_env 4 4 = (0, 0)) in E.
  assert (Hnorm : get_norm (placement edges_env 4 4) = 2).
  { unfold placement, polar. cbn [kind edges_env Navigation_object].
    rewrite get_norm_polar; rewrite edges_env_radius; lra. }
  rewrite E, get_norm_origin in Hnorm. lra.
Defined.

Lemma get_norm_1_0 : get_norm (1, 0) = 1.
Proof.
  unfold get_norm. cbn [fst snd].
  replace (1 ^ 2 + 0 ^ 2) with 1 by ring. apply sqrt_1.
Qed.

(** On [edges_env] the action [[1.0, 0.0]] takes the agent from the origin to
    the rim of the world: the first step ends the episode at the goal. *)
Lemma edges_env_step_out :
  exists r,
    step (Ndarray1 Float [1; 0]) edges_env =
      Ok r (settled true (moved (1, 0) edges_env)) /\
    done r = true.
Proof.
  assert (Hw : world_scale edges_env <> 0)
    by (cbn [world_scale edges_env Navigation_object]; lra).
  assert (Hloc : location (moved (1, 0) edges_env) = (0 + 1 / 1, 0 + 0 / 1)).
  { unfold moved, displacement. rewrite clip_small by (rewrite get_norm_1_0; lra).
    reflexivity. }
  assert (Hg : _at_goal (moved (1, 0) edges_env) = Ok true (moved (1, 0) edges_env)).
  { rewrite NavToEdges_at_goal by reflexivity. rewrite Hloc.
    replace (0 + 1 / 1) with 1 by field. replace (0 + 0 / 1) with 0 by field.
    rewrite get_norm_1_0. rewrite Rleb_true by lra. reflexivity. }
  destruct (step_float_returns edges_env 1 0 true eq_refl Hw Hg) as (r & Er & Hd).
  - intros _. cbn [sparsity edges_env Navigation_object]. lra.
  - exists r. split; [exact Er |]. rewrite Hd. reflexivity.
Qed.


Lemma step_reward_rule_witness :
  exists r s' g,
    step (Ndarray1 Float [1; 0]) edges_env = Ok r s' /\
    _at_goal s' = Ok g s' /\
    lookup "at_goal" (info r) = Some g /\
    exists shaped,
      _get_shaped_reward s' = Ok shaped s' /\
      reward r = shaped / 2 + (if done r && g then 1 else 0).
Proof.
  destruct edges_env_step_out as (r & Er & Hd).
  destruct (step_reward_rule _ _ _ _ Er) as (g & Hg & Hi & _ & Htrain).
  destruct (Htrain eq_refl) as (shaped & Hsh & Hr & _).
  exists r, (settled true (moved (1, 0) edges_env)), g.
  split; [exact Er |]. split; [exact Hg |]. split; [exact Hi |].
  exists shaped. split; [exact Hsh | exact Hr].
Defined.

(** * Further properties of the module *)

(** ** Geometry *)









(** ** [cosine_similarity] *)




(** ** What a returning [step] has done *)

Lemma _take_action_Ok_float a u s s' :
  _take_action a s = Ok u s' ->
  exists x y,
    a = Ndarray1 Float [x; y] /\ world_scale s <> 0 /\
    s' = set_location (vadd (location s) (displacement (world_scale s) (x, y))) s.
Proof.
  intros H. destruct (action_error a) as [e |] eqn:Ea.
  - rewrite (_take_action_malformed _ _ _ Ea) in H. discriminate.
  - destruct a as [dt data | hs]; [| discriminate].
    destruct dt; destruct data as [| x [| y [| z data]]]; try discriminate.
    exists x, y. split; [reflexivity |].
    destruct (Req_dec_T (world_scale s) 0) as [Hz | Hnz].
    + rewrite (_take_action_float_zero_scale _ _ _ Hz) in H. discriminate.
    + split; [exact Hnz |]. rewrite (_take_action_float _ _ _ Hnz) in H.
      inversion H. reflexivity.
Qed.

Lemma settled_fields g s :
  location (settled g s) = location s /\
  prev_location (settled g s) = prev_location s /\
  num_steps (settled g s) = num_steps s /\
  stop (settled g s) = stop s || stops s g.
Proof.
  unfold settled. destruct (stops s g); cbn; repeat split;
    destruct (stop s); reflexivity.
Qed.

Lemma shaped_reward_potential s :
  _get_shaped_reward s =
  Ok ((potential s (location s) - potential s (prev_location s)) * world_scale s) s.
Proof.
  unfold _get_shaped_reward, potential, bind, get. destruct (kind s).
  - unfold NavToCenter._get_shaped_reward, bind, get, ret. f_equal. ring.
  - unfold NavToEdges._get_shaped_reward, bind, get, ret. reflexivity.
Qed.

Lemma potential_config s1 s2 v :
  config s1 = config s2 -> potential s1 v = potential s2 v.
Proof.
  unfold config, potential. intros H. inversion H as [[Hk Hg Hwr Hws He Hm Hsp Hb Hmx]].
  rewrite Hk, Hb. reflexivity.
Qed.

(** Everything a returning [step] fixes, in one place. *)
Lemma step_Ok_full a s r s' :
  step a s = Ok r s' ->
  exists x y g,
    a = Ndarray1 Float [x; y] /\
    world_scale s <> 0 /\
    stop s = false /\
    s' = settled g (moved (x, y) s) /\
    _at_goal (moved (x, y) s) = Ok g (moved (x, y) s) /\
    info r = [("at_goal"%string, g)] /\
    done r = stops (moved (x, y) s) g /\
    observation r = location s' /\
    (is_eval s = true -> reward r = float_of_bool g) /\
    (is_eval s = false ->
     sparsity s <> 0 /\
     reward r =
       (potential s (location s') - potential s (location s)) * world_scale s
       / sparsity s
       + (if done r && g then 1 else 0)).
Proof.
  intros H.
  destruct (step_Ok _ _ _ _ H) as (v & g & Hs & Hta & Hres & Hg & Hs' & Hd & Hi).
  cbn zeta in *.
  destruct (_take_action_Ok_float _ _ _ _ Hta) as (x & y & -> & Hw & Hm).
  cbn [world_scale location begin_step set_prev_location set_num_steps] in Hw.
  change (set_location v (begin_step s) = moved (x, y) s) in Hm.
  rewrite Hm in *. clear Hm v.
  destruct (_get_step_result_Ok _ _ _ _ Hres) as (g' & Hg' & _ & Hobs & _ & _ & Hev & Htr).
  assert (g' = g) by congruence. subst g'.
  destruct (settled_fields g (moved (x, y) s)) as (Hl & Hp & _ & _).
  exists x, y, g. repeat split; try assumption.
  - rewrite Hs', Hl. exact Hobs.
  - destruct (Htr H0) as (sh & Hsh & Hsp & _). exact Hsp.
  - destruct (Htr H0) as (sh & Hsh & _ & Hr).
    rewrite shaped_reward_potential in Hsh. inversion Hsh as [Hv]. clear Hsh.
    rewrite Hr, <- Hv.
    assert (Hc : config s' = config s).
    { apply (step_config (Ndarray1 Float [x; y])). rewrite H. reflexivity. }
    rewrite !(potential_config s' s _ Hc).
    assert (Hws : world_scale s' = world_scale s)
      by (unfold config in Hc; inversion Hc; reflexivity).
    rewrite Hws. rewrite Hs' at 2. rewrite Hp.
    cbn [prev_location moved set_location begin_step set_prev_location set_num_steps
         sparsity].
    ring.
Qed.





(** ** Runs of steps *)

Lemma run_steps_config actions :
  forall s rs s', run_steps actions s = Some (rs, s') -> config s' = config s.
Proof.
  induction actions as [| a rest IH]; intros s rs s' Hrun.
  - cbn in Hrun. inversion Hrun; subst. reflexivity.
  - cbn [run_steps] in Hrun.
    destruct (step a s) as [r0 s1 | |] eqn:Ea; try discriminate.
    destruct (run_steps rest s1) as [[rs1 s2] |] eqn:Erest; try discriminate.
    inversion Hrun; subst.
    rewrite (IH _ _ _ Erest). apply (step_config a). rewrite Ea. reflexivity.
Qed.



(** ** Rewards *)



Lemma at_goal_flag_info r g : info r = [("at_goal"%string, g)] -> at_goal_flag r = g.
Proof. intros H. unfold at_goal_flag. rewrite H. reflexivity. Qed.


(** X6.  In training mode the rewards of a run of returning steps add up to
    the progress from the first position to the last, times [world_scale]
    over [sparsity], plus [1.0] when the last step ended the episode at the
    goal: the shaped rewards of consecutive steps telescope. *)
Theorem training_rewards_telescope actions s rs s' :
  run_steps actions s = Some (rs, s') ->
  is_eval s = false ->
  total_reward rs =
    (potential s (location s') - potential s (location s)) * world_scale s / sparsity s
    + (if ended_at_goal rs then 1 else 0).
Proof.
  revert s rs s'. induction actions as [| a rest IH]; intros s rs s' Hrun Hev.
  - cbn in Hrun. inversion Hrun; subst. cbn [total_reward ended_at_goal].
    unfold Rdiv. ring.
  - cbn [run_steps] in Hrun.
    destruct (step a s) as [r0 s1 | |] eqn:Ea; try discriminate.
    destruct (run_steps rest s1) as [[rs1 s2] |] eqn:Erest; try discriminate.
    inversion Hrun; subst.
    assert (Hc : config s1 = config s).
    { apply (step_config a). rewrite Ea. reflexivity. }
    assert (Hev1 : is_eval s1 = false)
      by (unfold config in Hc; inversion Hc; congruence).
    assert (Hws : world_scale s1 = world_scale s)
      by (unfold config in Hc; inversion Hc; reflexivity).
    assert (Hsp : sparsity s1 = sparsity s)
      by (unfold config in Hc; inversion Hc; reflexivity).
    destruct (step_Ok_full _ _ _ _ Ea)
      as (x & y & g & _ & _ & _ & _ & _ & Hi & _ & _ & _ & Htr).
    destruct (Htr Hev) as [_ Hr].
    pose proof (IH _ _ _ Erest Hev1) as Hrest.
    rewrite !(potential_config s1 s _ Hc), Hws, Hsp in Hrest.
    cbn [total_reward]. rewrite Hrest, Hr.
    destruct rs1 as [| r1 rs2].
    + destruct rest as [| a' rest'].
      * cbn in Erest. inversion Erest; subst. cbn [ended_at_goal].
        rewrite (at_goal_flag_info _ _ Hi). unfold Rdiv. ring.
      * cbn [run_steps] in Erest.
        destruct (step a' s1) as [r1 s3 | |]; try discriminate.
        destruct (run_steps rest' s3) as [[rs3 s4] |]; discriminate.
    + assert (Hnd : done r0 = false).
      { apply (run_steps_not_last (a :: rest) s (r0 :: r1 :: rs2) s' ) with (j := 0%nat).
        - cbn [run_steps]. rewrite Ea, Erest. reflexivity.
        - reflexivity.
        - cbn [List.length]. lia. }
      rewrite Hnd. cbn [andb ended_at_goal]. unfold Rdiv. ring.
Qed.

(** X7.  In evaluation mode, on an object whose step count is not negative,
    the rewards of a run of returning steps add up to [1.0] when the last
    step ended the episode at the goal and to [0.0] otherwise. *)
Theorem eval_rewards_count_success actions s rs s' :
  run_steps actions s = Some (rs, s') ->
  is_eval s = true ->
  (0 <= num_steps s)%Z ->
  total_reward rs = (if ended_at_goal rs then 1 else 0).
Proof.
  revert s rs s'. induction actions as [| a rest IH]; intros s rs s' Hrun Hev Hn.
  - cbn in Hrun. inversion Hrun; subst. reflexivity.
  - cbn [run_steps] in Hrun.
    destruct (step a s) as [r0 s1 | |] eqn:Ea; try discriminate.
    destruct (run_steps rest s1) as [[rs1 s2] |] eqn:Erest; try discriminate.
    inversion Hrun; subst.
    assert (Hc : config s1 = config s).
    { apply (step_config a). rewrite Ea. reflexivity. }
    assert (Hev1 : is_eval s1 = true)
      by (unfold config in Hc; inversion Hc; congruence).
    destruct (step_Ok_full _ _ _ _ Ea)
      as (x & y & g & _ & _ & _ & Hs1 & _ & Hi & Hd & _ & Hre & _).
    destruct (settled_fields g (moved (x, y) s)) as (_ & _ & Hns & _).
    assert (Hn1 : num_steps s1 = (num_steps s + 1)%Z) by (rewrite Hs1, Hns; reflexivity).
    assert (Hpos : (0 <? num_steps (moved (x, y) s))%Z = true).
    { apply Z.ltb_lt. cbn [num_steps moved set_location begin_step set_prev_location
                           set_num_steps]. lia. }
    assert (Hdg : done r0 && g = g).
    { rewrite Hd. unfold stops. rewrite Hpos. destruct g; [reflexivity | apply andb_false_r]. }
    pose proof (IH _ _ _ Erest Hev1 ltac:(lia)) as Hrest.
    cbn [total_reward]. rewrite Hrest, (Hre Hev).
    destruct rs1 as [| r1 rs2].
    + cbn [ended_at_goal]. rewrite (at_goal_flag_info _ _ Hi), Hdg.
      unfold float_of_bool. destruct g; ring.
    + assert (Hnd : done r0 = false).
      { apply (run_steps_not_last (a :: rest) s (r0 :: r1 :: rs2) s') with (j := 0%nat).
        - cbn [run_steps]. rewrite Ea, Erest. reflexivity.
        - reflexivity.
        - cbn [List.length]. lia. }
      rewrite Hnd in Hdg. cbn [andb] in Hdg. subst g.
      cbn [ended_at_goal float_of_bool]. ring.
Qed.

(** *** The sample objects, one step towards the centre *)

Lemma get_norm_axis x : 0 <= x -> get_norm (x, 0) = x.
Proof.
  intros Hx. unfold get_norm. cbn [fst snd].
  replace (x ^ 2 + 0 ^ 2) with (x * x) by ring. apply sqrt_square. exact Hx.
Qed.

Lemma get_norm_m1_0 : get_norm (-1, 0) = 1.
Proof.
  unfold get_norm. cbn [fst snd].
  replace ((-1) ^ 2 + 0 ^ 2) with 1 by ring. apply sqrt_1.
Qed.

(** A [NavToCenter] agent at [(0.9, 0)] in a world of radius [2] with goal
    radius [1] reaches the goal with the action [[-1, 0]]. *)
Lemma center_step_in s :
  kind s = IsNavToCenter -> world_scale s = 2 -> goal_radius s = 1 ->
  location s = (9 / 10, 0) -> stop s = false -> num_steps s = 0%Z ->
  (is_eval s = false -> sparsity s <> 0) ->
  get_norm (location (moved (-1, 0) s)) = 2 / 5 /\
  exists r,
    step (Ndarray1 Float [-1; 0]) s = Ok r (settled true (moved (-1, 0) s)) /\
    done r = true.
Proof.
  intros Hk Hws Hg Hloc Hs Hn Hsp.
  assert (Hw : world_scale s <> 0) by lra.
  assert (Hm : location (moved (-1, 0) s) = (2 / 5, 0)).
  { unfold moved, displacement. rewrite clip_small by (rewrite get_norm_m1_0; lra).
    cbn [location set_location fst snd]. rewrite Hloc, Hws. unfold vadd. cbn [fst snd].
    f_equal; field. }
  assert (Hnorm : get_norm (location (moved (-1, 0) s)) = 2 / 5).
  { rewrite Hm. apply get_norm_axis. lra. }
  split; [exact Hnorm |].
  assert (Hgoal : _at_goal (moved (-1, 0) s) = Ok true (moved (-1, 0) s)).
  { rewrite NavToCenter_at_goal; [| exact Hk | exact Hw]. rewrite Hnorm.
    cbn [goal_radius world_scale moved set_location begin_step set_prev_location
         set_num_steps].
    rewrite Hg, Hws. rewrite Rleb_true by lra. reflexivity. }
  destruct (step_float_returns s (-1) 0 true Hs Hw Hgoal Hsp) as (r & Er & Hd).
  exists r. split; [exact Er |]. rewrite Hd. unfold stops.
  cbn [num_steps moved set_location begin_step set_prev_location set_num_steps].
  rewrite Hn. reflexivity.
Qed.


Lemma center_away_step :
  exists r,
    step (Ndarray1 Float [-1; 0]) center_away
      = Ok r (settled true (moved (-1, 0) center_away)) /\
    done r = true.
Proof.
  apply (center_step_in center_away); try reflexivity.
  intros H. discriminate H.
Qed.


Lemma training_rewards_telescope_witness :
  exists rs s',
    run_steps [idle; idle] edges_env = Some (rs, s') /\
    total_reward rs =
      (potential edges_env (location s') - potential edges_env (0, 0)) * 1 / 2
      + (if ended_at_goal rs then 1 else 0).
Proof.
  assert (Hpos : 0 <= world_scale edges_env * max_step_scale edges_env)
    by (cbn [world_scale max_step_scale edges_env Navigation_object]; lra).
  assert (Hmax : max_steps edges_env = 2%Z).
  { change (max_steps edges_env)
      with (py_int (world_scale edges_env * max_step_scale edges_env)).
    rewrite (py_int_nonneg _ Hpos). exact edges_env_budget. }
  destruct (idle_episode 2 edges_env) as (rs & s' & Hrun & _).
  - reflexivity.
  - cbn [world_scale edges_env Navigation_object]. lra.
  - intros _. cbn [sparsity edges_env Navigation_object]. lra.
  - cbn [location edges_env Navigation_object]. rewrite get_norm_origin. lra.
  - reflexivity.
  - rewrite Hmax. cbn [num_steps edges_env Navigation_object]. lia.
  - exists rs, s'. split; [exact Hrun |].
    exact (training_rewards_telescope _ _ _ _ Hrun eq_refl).
Defined.

Lemma eval_rewards_count_success_witness :
  exists r s',
    run_steps [Ndarray1 Float [-1; 0]] center_away = Some ([r], s') /\
    total_reward [r] = (if ended_at_goal [r] then 1 else 0).
Proof.
  destruct center_away_step as (r & Er & _).
  assert (Hrun : run_steps [Ndarray1 Float [-1; 0]] center_away
                 = Some ([r], settled true (moved (-1, 0) center_away))).
  { cbn [run_steps]. rewrite Er. reflexivity. }
  assert (Hn : (0 <= num_steps center_away)%Z) by (cbn; lia).
  exists r, (settled true (moved (-1, 0) center_away)).
  split; [exact Hrun |].
  exact (eval_rewards_count_success _ _ _ _ Hrun eq_refl Hn).
Defined.

(** ** The exceptions of [step] *)

Lemma _at_goal_defined s : world_scale s <> 0 -> exists g, _at_goal s = Ok g s.
Proof.
  intros Hw. destruct (kind s) eqn:Hk.
  - eexists. apply NavToCenter_at_goal; assumption.
  - eexists. apply NavToEdges_at_goal; assumption.
Qed.

Lemma _get_step_result_no_raise a s g e s' :
  _at_goal s = Ok g s -> _get_step_result a s <> Raise e s'.
Proof.
  intros E.
  unfold _get_step_result, get_observation. unfold bind at 1 2. unfold get at 1, ret at 1.
  unfold bind at 1. rewrite E.
  unfold bind at 1. unfold get at 1. unfold bind at 1. fold (stops s g).
  assert (E1 : (if stops s g then modify (set_stop true) else ret tt) s = Ok tt (settled g s))
    by (unfold settled; destruct (stops s g); reflexivity).
  rewrite E1. unfold bind at 1. unfold get at 1.
  destruct (is_eval (settled g s)); [discriminate |].
  unfold bind at 1. destruct (_get_shaped_reward_Ok (settled g s)) as [sh Esh]. rewrite Esh.
  unfold bind, np, ret. destruct (np_divide sh (sparsity (settled g s))); discriminate.
Qed.

Lemma action_error_None a :
  action_error a = None -> exists x y, a = Ndarray1 Float [x; y].
Proof.
  destruct a as [dt data | hs]; [| discriminate].
  destruct dt; destruct data as [| x [| y [| z data]]]; try discriminate.
  intros _. exists x, y. reflexivity.
Qed.

Lemma step_Raise_running a s e s' :
  stop s = false -> step a s = Raise e s' ->
  action_error a = Some e /\ s' = begin_step s.
Proof.
  intros Hs H. rewrite (step_running _ _ Hs) in H. unfold bind at 1 in H.
  destruct (action_error a) as [e0 |] eqn:Ea.
  - rewrite (_take_action_malformed _ _ _ Ea) in H. inversion H; subst.
    split; reflexivity.
  - exfalso. destruct (action_error_None _ Ea) as (x & y & ->).
    destruct (Req_dec_T (world_scale (begin_step s)) 0) as [Hz | Hnz].
    + rewrite (_take_action_float_zero_scale _ _ _ Hz) in H. discriminate.
    + rewrite (_take_action_float _ _ _ Hnz) in H.
      match type of H with
      | _get_step_result _ ?m = _ =>
          assert (Hw : world_scale m <> 0) by exact Hnz;
          destruct (_at_goal_defined m Hw) as [g Hg];
          exact (_get_step_result_no_raise _ _ _ _ _ Hg H)
      end.
Qed.

(** The goal test of [NavToCenter] on an object whose scale is zero: the
    Python division raises. *)
Lemma NavToCenter_at_goal_zero_scale s :
  kind s = IsNavToCenter -> world_scale s = 0 ->
  _at_goal s = Raise ZeroDivisionError s.
Proof.
  intros Hk Hw. unfold _at_goal, bind, get. rewrite Hk.
  unfold NavToCenter._at_goal, bind, get, py, py_truediv. rewrite Hw.
  destruct (Req_dec_T 0 0); [reflexivity | contradiction].
Qed.




(** ** [reset] *)

Lemma reset_Ok_form u t s v s' : reset u t s = Ok v s' -> s' = after_reset v s.
Proof.
  run_all. split_cases; intros H; inversion H; reflexivity.
Qed.

(** X9.  From any object, stopped or not, and for both variants, a [reset]
    that returns starts a fresh episode: [stop] is false, [num_steps] is [0],
    [location] and [prev_location] both hold the returned observation, the
    configuration is untouched, and the next [step] can only raise for a
    malformed action. *)
Theorem reset_starts_episode u t s v s' :
  reset u t s = Ok v s' ->
  stop s' = false /\
  num_steps s' = 0%Z /\
  location s' = v /\
  prev_location s' = v /\
  config s' = config s /\
  (forall a e s'', step a s' = Raise e s'' -> action_error a = Some e).
Proof.
  intros H. rewrite (reset_Ok_form _ _ _ _ _ H).
  repeat split.
  intros a e s'' Hr.
  exact (proj1 (step_Raise_running a (after_reset v s) e s'' eq_refl Hr)).
Qed.

Lemma reset_starts_episode_witness :
  stop center_away = false /\
  num_steps center_away = 0%Z /\
  location center_away = (9 / 10, 0) /\
  prev_location center_away = (9 / 10, 0) /\
  config center_away = config center_env /\
  (forall a e s'', step a center_away = Raise e s'' -> action_error a = Some e).
Proof.
  exact (reset_starts_episode (1, 0) (56 / 75) center_env (9 / 10, 0) center_away
           center_away_is_reset).
Defined.







(** ** More on [fib_disc_init] *)


(** X13.  For [NavToEdges] with [world_scale > 0], [world_radius >= 0] and
    [n > 0], the placements of [fib_disc_init(i, n)] for [0 <= i <= j <= n]
    lie at the radius [sqrt(i / n) * world_radius / world_scale], which does
    not decrease with [i] and reaches [world_radius / world_scale] at
    [i = n]: no placement is outside the world. *)
Theorem NavToEdges_placements_in_world s n i j :
  kind s = IsNavToEdges ->
  0 < world_scale s ->
  0 <= world_radius s ->
  (0 < n)%Z ->
  (0 <= i <= j)%Z ->
  (j <= n)%Z ->
  get_norm (placement s i n) = NavToEdges_radius s i n /\
  NavToEdges_radius s i n <= NavToEdges_radius s j n /\
  NavToEdges_radius s j n <= world_radius s / world_scale s /\
  NavToEdges_radius s n n = world_radius s / world_scale s.
Proof.
  intros Hk Hws Hwr Hn Hij Hjn.
  assert (Hn' : 0 < IZR n) by (apply IZR_lt; exact Hn).
  assert (Hi : 0 <= IZR i) by (apply IZR_le; lia).
  assert (Hj : IZR i <= IZR j) by (apply IZR_le; lia).
  assert (Hjn' : IZR j <= IZR n) by (apply IZR_le; exact Hjn).
  assert (Hh : 0 <= world_radius s / world_scale s).
  { apply Rmult_le_pos; [exact Hwr |]. left. apply Rinv_0_lt_compat. exact Hws. }
  assert (Hinv : 0 < / IZR n) by (apply Rinv_0_lt_compat; exact Hn').
  assert (Hform : forall k, NavToEdges_radius s k n
                            = sqrt (IZR k / IZR n) * (world_radius s / world_scale s)).
  { intros k. unfold NavToEdges_radius. field. lra. }
  assert (Hone : sqrt (IZR n / IZR n) = 1).
  { replace (IZR n / IZR n) with 1 by (field; lra). apply sqrt_1. }
  split; [| split; [| split]].
  - unfold placement, polar. rewrite Hk. apply get_norm_polar.
    rewrite Hform. apply Rmult_le_pos; [apply sqrt_pos | exact Hh].
  - rewrite !Hform. apply Rmult_le_compat_r; [exact Hh |].
    apply sqrt_le_1_alt. unfold Rdiv. apply Rmult_le_compat_r; lra.
  - rewrite Hform.
    assert (Hs : sqrt (IZR j / IZR n) <= 1).
    { rewrite <- Hone. apply sqrt_le_1_alt. unfold Rdiv. apply Rmult_le_compat_r; lra. }
    pose proof (sqrt_pos (IZR j / IZR n)) as Hp. nra.
  - rewrite Hform, Hone. ring.
Qed.

Lemma NavToEdges_placements_in_world_witness :
  get_norm (placement edges_env 1 4) = NavToEdges_radius edges_env 1 4 /\
  NavToEdges_radius edges_env 1 4 <= NavToEdges_radius edges_env 3 4 /\
  NavToEdges_radius edges_env 3 4 <= 2 / 1 /\
  NavToEdges_radius edges_env 4 4 = 2 / 1.
Proof.
  apply (NavToEdges_placements_in_world edges_env 4 1 3).
  - reflexivity.
  - cbn [world_scale edges_env Navigation_object]. lra.
  - cbn [world_radius edges_env Navigation_object]. lra.
  - lia.
  - lia.
  - lia.
Defined.

(** ** The evaluation sweep *)









(** ** Invariants of the object *)




(** ** Biased reward shaping *)

Lemma fst_clip_vertical y : fst (clip (0, y)) = 0.
Proof.
  unfold clip. destruct (Rltb 1 (get_norm (0, y))) eqn:E; cbn [fst]; [| reflexivity].
  unfold Rdiv. ring.
Qed.

(** X18.  For a [NavToEdges] object with [biased_reward_shaping] in training
    mode, a returning step with an action along the second coordinate,
    [[0, y]], leaves the first coordinate of the position unchanged, and its
    reward is the terminal bonus alone: [1.0] when the step reports [done]
    with the goal reached, [0.0] otherwise, however far the agent moved. *)
Theorem biased_reward_ignores_second_coordinate y s r s' :
  kind s = IsNavToEdges ->
  biased_reward_shaping s = true ->
  is_eval s = false ->
  step (Ndarray1 Float [0; y]) s = Ok r s' ->
  fst (location s') = fst (location s) /\
  reward r = (if done r && at_goal_flag r then 1 else 0).
Proof.
  intros Hk Hb Hev H.
  destruct (step_Ok_full _ _ _ _ H)
    as (x & y0 & g & Ha & Hw & _ & Hs' & _ & Hi & _ & _ & _ & Htr).
  inversion Ha; subst x y0. clear Ha.
  destruct (Htr Hev) as [Hsp Hr].
  destruct (settled_fields g (moved (0, y) s)) as (Hl & _).
  assert (Hfst : fst (location s') = fst (location s)).
  { rewrite Hs', Hl. unfold moved, displacement, vadd.
    cbn [location set_location fst snd]. rewrite fst_clip_vertical.
    cbn [location begin_step set_prev_location set_num_steps].
    unfold Rdiv. ring. }
  split; [exact Hfst |].
  rewrite Hr, (at_goal_flag_info _ _ Hi).
  unfold potential. rewrite Hk, Hb, Hfst. unfold Rdiv. ring.
Qed.

Lemma get_norm_axis_y y : 0 <= y -> get_norm (0, y) = y.
Proof.
  intros Hy. unfold get_norm. cbn [fst snd].
  replace (0 ^ 2 + y ^ 2) with (y * y) by ring. apply sqrt_square. exact Hy.
Qed.

Lemma edges_biased_step_up :
  exists r,
    step (Ndarray1 Float [0; 1 / 2]) edges_biased
      = Ok r (settled false (moved (0, 1 / 2) edges_biased)).
Proof.
  assert (Hw : world_scale edges_biased <> 0)
    by (cbn [world_scale edges_biased Navigation_object]; lra).
  assert (Hloc : location (moved (0, 1 / 2) edges_biased) = (0, 1 / 2)).
  { unfold moved, displacement.
    rewrite clip_small by (rewrite get_norm_axis_y; lra).
    cbn [location set_location begin_step set_prev_location set_num_steps
         edges_biased Navigation_object world_scale fst snd].
    unfold vadd. cbn [fst snd]. f_equal; field. }
  assert (Hg : _at_goal (moved (0, 1 / 2) edges_biased)
               = Ok false (moved (0, 1 / 2) edges_biased)).
  { rewrite NavToEdges_at_goal by reflexivity. rewrite Hloc.
    rewrite get_norm_axis_y by lra. rewrite Rleb_false by lra. reflexivity. }
  destruct (step_float_returns edges_biased 0 (1 / 2) false eq_refl Hw Hg) as (r & Er & _).
  - intros _. cbn [sparsity edges_biased Navigation_object]. lra.
  - exists r. exact Er.
Qed.

Lemma biased_reward_ignores_second_coordinate_witness :
  exists r s',
    step (Ndarray1 Float [0; 1 / 2]) edges_biased = Ok r s' /\
    fst (location s') = 0 /\
    reward r = (if done r && at_goal_flag r then 1 else 0).
Proof.
  destruct edges_biased_step_up as (r & Er).
  exists r, (settled false (moved (0, 1 / 2) edges_biased)).
  split; [exact Er |].
  exact (biased_reward_ignores_second_coordinate (1 / 2) edges_biased r _
           eq_refl eq_refl eq_refl Er).
Defined.

(** * Configurations *)

Lemma set_if_absent_other probe name v cfg k :
  String.eqb k name = false -> set_if_absent probe name v cfg k = cfg k.
Proof.
  intros H. unfold set_if_absent, setattr. destruct (hasattr cfg probe); [reflexivity |].
  rewrite H. reflexivity.
Qed.

Lemma set_if_absent_same probe name v cfg :
  set_if_absent probe name v cfg name = if hasattr cfg probe then cfg name else Some v.
Proof.
  unfold set_if_absent, setattr. destruct (hasattr cfg probe); [reflexivity |].
  rewrite String.eqb_refl. reflexivity.
Qed.

Lemma hasattr_set_if_absent_other probe name v cfg p :
  String.eqb p name = false ->
  hasattr (set_if_absent probe name v cfg) p = hasattr cfg p.
Proof. intros H. unfold hasattr. rewrite (set_if_absent_other _ _ _ _ _ H). reflexivity. Qed.


(** What [patch_old_configs] leaves under each name. *)
Lemma patch_old_configs_at cfg k :
  patch_old_configs cfg k =
  if String.eqb k "obs_type" then
    if hasattr cfg "env_shape" then
      match cfg "obs_type"%string with
      | Some v => Some v
      | None => Some (PyStr "vector")
      end
    else Some (PyStr "square")
  else if String.eqb k "action_noise" then
    if hasattr cfg "bottleneck_temperature" then cfg "action_noise"%string
    else Some (PyFloat 0)
  else if String.eqb k "init_model_path" then
    match cfg k with Some v => Some v | None => Some PyNone end
  else if String.eqb k "policy_activation" then
    match cfg k with Some v => Some v | None => Some (PyStr "tanh") end
  else if String.eqb k "bottleneck_temperature" then
    match cfg k with Some v => Some v | None => Some (PyFloat 1) end
  else if String.eqb k "reward_structure" then
    match cfg k with Some v => Some v | None => Some (PyStr "proximity") end
  else if String.eqb k "n_proc_alg" then
    match cfg k with Some v => Some v | None => Some (PyInt 1) end
  else if String.eqb k "discrete_action" then
    match cfg k with Some v => Some v | None => Some (PyBool false) end
  else cfg k.
Proof.
  unfold patch_old_configs. cbv zeta.
  destruct (String.eqb_spec k "obs_type") as [-> | N1].
  { (repeat (rewrite set_if_absent_other
            by (reflexivity || (apply String.eqb_neq; assumption)));
    repeat (rewrite hasattr_set_if_absent_other by reflexivity)). rewrite set_if_absent_same. unfold hasattr at 1.
    rewrite set_if_absent_same. (repeat (rewrite set_if_absent_other
            by (reflexivity || (apply String.eqb_neq; assumption)));
    repeat (rewrite hasattr_set_if_absent_other by reflexivity)).
    destruct (hasattr cfg "env_shape"); [| reflexivity].
    destruct (cfg "obs_type"%string); reflexivity. }
  destruct (String.eqb_spec k "action_noise") as [-> | N2].
  { (repeat (rewrite set_if_absent_other
            by (reflexivity || (apply String.eqb_neq; assumption)));
    repeat (rewrite hasattr_set_if_absent_other by reflexivity)). rewrite set_if_absent_same. unfold hasattr at 1. (repeat (rewrite set_if_absent_other
            by (reflexivity || (apply String.eqb_neq; assumption)));
    repeat (rewrite hasattr_set_if_absent_other by reflexivity)).
    reflexivity. }
  destruct (String.eqb_spec k "init_model_path") as [-> | N3].
  { (repeat (rewrite set_if_absent_other
            by (reflexivity || (apply String.eqb_neq; assumption)));
    repeat (rewrite hasattr_set_if_absent_other by reflexivity)). rewrite set_if_absent_same. unfold hasattr.
    destruct (cfg "init_model_path"%string); reflexivity. }
  destruct (String.eqb_spec k "policy_activation") as [-> | N4].
  { (repeat (rewrite set_if_absent_other
            by (reflexivity || (apply String.eqb_neq; assumption)));
    repeat (rewrite hasattr_set_if_absent_other by reflexivity)). rewrite set_if_absent_same. unfold hasattr at 1. (repeat (rewrite set_if_absent_other
            by (reflexivity || (apply String.eqb_neq; assumption)));
    repeat (rewrite hasattr_set_if_absent_other by reflexivity)).
    destruct (cfg "policy_activation"%string); reflexivity. }
  destruct (String.eqb_spec k "bottleneck_temperature") as [-> | N5].
  { (repeat (rewrite set_if_absent_other
            by (reflexivity || (apply String.eqb_neq; assumption)));
    repeat (rewrite hasattr_set_if_absent_other by reflexivity)). rewrite set_if_absent_same. unfold hasattr at 1. (repeat (rewrite set_if_absent_other
            by (reflexivity || (apply String.eqb_neq; assumption)));
    repeat (rewrite hasattr_set_if_absent_other by reflexivity)).
    destruct (cfg "bottleneck_temperature"%string); reflexivity. }
  destruct (String.eqb_spec k "reward_structure") as [-> | N6].
  { (repeat (rewrite set_if_absent_other
            by (reflexivity || (apply String.eqb_neq; assumption)));
    repeat (rewrite hasattr_set_if_absent_other by reflexivity)). rewrite set_if_absent_same. unfold hasattr at 1. (repeat (rewrite set_if_absent_other
            by (reflexivity || (apply String.eqb_neq; assumption)));
    repeat (rewrite hasattr_set_if_absent_other by reflexivity)).
    destruct (cfg "reward_structure"%string); reflexivity. }
  destruct (String.eqb_spec k "n_proc_alg") as [-> | N7].
  { (repeat (rewrite set_if_absent_other
            by (reflexivity || (apply String.eqb_neq; assumption)));
    repeat (rewrite hasattr_set_if_absent_other by reflexivity)). rewrite set_if_absent_same. unfold hasattr at 1. (repeat (rewrite set_if_absent_other
            by (reflexivity || (apply String.eqb_neq; assumption)));
    repeat (rewrite hasattr_set_if_absent_other by reflexivity)).
    destruct (cfg "n_proc_alg"%string); reflexivity. }
  destruct (String.eqb_spec k "discrete_action") as [-> | N8].
  { rewrite set_if_absent_same. unfold hasattr at 1. (repeat (rewrite set_if_absent_other
            by (reflexivity || (apply String.eqb_neq; assumption)));
    repeat (rewrite hasattr_set_if_absent_other by reflexivity)).
    destruct (cfg "discrete_action"%string); reflexivity. }
  (repeat (rewrite set_if_absent_other
            by (reflexivity || (apply String.eqb_neq; assumption)));
    repeat (rewrite hasattr_set_if_absent_other by reflexivity)). reflexivity.
Qed.

(** X19.  Whatever configuration it is given, [patch_old_configs] returns one
    that has [init_model_path], [obs_type], [policy_activation],
    [bottleneck_temperature], [reward_structure], [n_proc_alg] and
    [discrete_action]; it removes no attribute; and it never supplies
    [env_shape]: that attribute is present afterwards only if it was present
    before. *)
Theorem patch_old_configs_fills_defaults cfg :
  Forall (fun name => hasattr (patch_old_configs cfg) name = true)
    ["init_model_path"; "obs_type"; "policy_activation"; "bottleneck_temperature";
     "reward_structure"; "n_proc_alg"; "discrete_action"]%string /\
  (forall name, hasattr cfg name = true -> hasattr (patch_old_configs cfg) name = true) /\
  hasattr (patch_old_configs cfg) "env_shape" = hasattr cfg "env_shape".
Proof.
  split; [| split].
  - repeat constructor; unfold hasattr at 1; rewrite patch_old_configs_at; cbn;
      try (destruct (hasattr cfg "env_shape"));
      match goal with
      | |- context [cfg ?k] => destruct (cfg k)
      | _ => idtac
      end; reflexivity.
  - intros name H. unfold hasattr in H. destruct (cfg name) as [v |] eqn:E; [| discriminate].
    unfold hasattr at 1. rewrite patch_old_configs_at.
    destruct (String.eqb_spec name "obs_type") as [-> | N1].
    { rewrite E. destruct (hasattr cfg "env_shape"); reflexivity. }
    destruct (String.eqb_spec name "action_noise") as [-> | N2].
    { rewrite E. destruct (hasattr cfg "bottleneck_temperature"); reflexivity. }
    rewrite E.
    repeat match goal with
      | |- context [String.eqb name ?k] => destruct (String.eqb name k)
      end; reflexivity.
  - unfold hasattr at 1 2. rewrite patch_old_configs_at. reflexivity.
Qed.

(** X20.  [patch_old_configs] keeps the value of every attribute the
    configuration already has, with two exceptions: when [env_shape] is
    missing it overwrites [obs_type] with ["square"], and when
    [bottleneck_temperature] is missing it overwrites [action_noise] with
    [0.0]. *)
Theorem patch_old_configs_keeps_values cfg :
  (forall name v,
     cfg name = Some v ->
     (name = "obs_type"%string -> hasattr cfg "env_shape" = true) ->
     (name = "action_noise"%string -> hasattr cfg "bottleneck_temperature" = true) ->
     patch_old_configs cfg name = Some v) /\
  (hasattr cfg "env_shape" = false ->
   patch_old_configs cfg "obs_type"%string = Some (PyStr "square")) /\
  (hasattr cfg "bottleneck_temperature" = false ->
   patch_old_configs cfg "action_noise"%string = Some (PyFloat 0)).
Proof.
  split; [| split].
  - intros name v E H1 H2. rewrite patch_old_configs_at.
    destruct (String.eqb_spec name "obs_type") as [-> | N1].
    { rewrite (H1 eq_refl), E. reflexivity. }
    destruct (String.eqb_spec name "action_noise") as [-> | N2].
    { rewrite (H2 eq_refl), E. reflexivity. }
    rewrite E.
    repeat match goal with
      | |- context [String.eqb name ?k] => destruct (String.eqb name k)
      end; reflexivity.
  - intros H. rewrite patch_old_configs_at. cbn. rewrite H. reflexivity.
  - intros H. rewrite patch_old_configs_at. cbn. rewrite H. reflexivity.
Qed.

Lemma patch_old_configs_keeps_values_witness :
  patch_old_configs old_cfg "reward_structure"%string = Some (PyStr "proximity") /\
  patch_old_configs old_cfg "obs_type"%string = Some (PyStr "square") /\
  patch_old_configs old_cfg "action_noise"%string = Some (PyFloat 0).
Proof.
  destruct (patch_old_configs_keeps_values old_cfg) as (H1 & H2 & H3).
  split; [| split].
  - apply H1; [reflexivity | discriminate | discriminate].
  - apply H2. reflexivity.
  - apply H3. reflexivity.
Defined.

Lemma patch_old_configs_present cfg name d :
  (match cfg name with Some v => Some v | None => Some d end) = patch_old_configs cfg name ->
  match patch_old_configs cfg name with Some v => Some v | None => Some d end
  = patch_old_configs cfg name.
Proof. intros <-. destruct (cfg name); reflexivity. Qed.

(** X21.  [patch_old_configs] is idempotent: patching a patched
    configuration changes no attribute. *)
Theorem patch_old_configs_idempotent cfg name :
  patch_old_configs (patch_old_configs cfg) name = patch_old_configs cfg name.
Proof.
  rewrite (patch_old_configs_at (patch_old_configs cfg) name).
  assert (Hes : hasattr (patch_old_configs cfg) "env_shape" = hasattr cfg "env_shape").
  { unfold hasattr at 1. rewrite patch_old_configs_at. reflexivity. }
  assert (Hbt : hasattr (patch_old_configs cfg) "bottleneck_temperature" = true).
  { unfold hasattr at 1. rewrite patch_old_configs_at. cbn.
    destruct (cfg "bottleneck_temperature"%string); reflexivity. }
  rewrite Hes, Hbt.
  destruct (String.eqb_spec name "obs_type") as [-> | N1].
  { rewrite (patch_old_configs_at cfg "obs_type"). cbn.
    destruct (hasattr cfg "env_shape"); [| reflexivity].
    destruct (cfg "obs_type"%string); reflexivity. }
  destruct (String.eqb_spec name "action_noise") as [-> | N2]; [reflexivity |].
  destruct (String.eqb_spec name "init_model_path") as [-> | N3].
  { apply patch_old_configs_present. rewrite patch_old_configs_at. reflexivity. }
  destruct (String.eqb_spec name "policy_activation") as [-> | N4].
  { apply patch_old_configs_present. rewrite patch_old_configs_at. reflexivity. }
  destruct (String.eqb_spec name "bottleneck_temperature") as [-> | N5].
  { apply patch_old_configs_present. rewrite patch_old_configs_at. reflexivity. }
  destruct (String.eqb_spec name "reward_structure") as [-> | N6].
  { apply patch_old_configs_present. rewrite patch_old_configs_at. reflexivity. }
  destruct (String.eqb_spec name "n_proc_alg") as [-> | N7].
  { apply patch_old_configs_present. rewrite patch_old_configs_at. reflexivity. }
  destruct (String.eqb_spec name "discrete_action") as [-> | N8].
  { apply patch_old_configs_present. rewrite patch_old_configs_at. reflexivity. }
  reflexivity.
Qed.

(** ** [make_env_kwargs] on a patched configuration *)

Lemma read_fields_returns fields cfg :
  (exists d, read_fields fields cfg = inr d) <->
  Forall (fun f => hasattr cfg (snd f) = true) fields.
Proof.
  induction fields as [| [key attr] rest IH]; cbn [read_fields].
  - split; [constructor | intros _; eexists; reflexivity].
  - unfold hasattr at 1. cbn [snd]. destruct (cfg attr) as [v |] eqn:E.
    + split.
      * intros [d Hd]. constructor; [cbn [snd]; unfold hasattr; rewrite E; reflexivity |].
        apply IH. destruct (read_fields rest cfg) as [e | d']; [discriminate |].
        eexists; reflexivity.
      * intros H. inversion H as [| ? ? _ Hrest]; subst.
        apply IH in Hrest. destruct Hrest as [d' Hd']. rewrite Hd'. eexists; reflexivity.
    + split; [intros [d Hd]; discriminate |].
      intros H. inversion H as [| ? ? Hh _]; subst. cbn [snd] in Hh.
      unfold hasattr in Hh. rewrite E in Hh. discriminate.
Qed.

(** X22.  [make_env_kwargs] applied to a patched configuration returns a
    dictionary exactly when the original configuration has [env_shape],
    [pixel_space], [env_lsize], [single_step], [action_scale] and
    [max_step_scale], and has [action_noise] if it has
    [bottleneck_temperature]; for a configuration without [env_shape] it
    raises the [AttributeError] for [env_shape], although
    [patch_old_configs] has a statement for that case. *)
Theorem make_env_kwargs_after_patch cfg :
  (hasattr cfg "env_shape" = false ->
   make_env_kwargs (patch_old_configs cfg) = inl "env_shape"%string) /\
  ((exists d, make_env_kwargs (patch_old_configs cfg) = inr d) <->
   hasattr cfg "env_shape" = true /\
   (hasattr cfg "bottleneck_temperature" = true -> hasattr cfg "action_noise" = true) /\
   Forall (fun a => hasattr cfg a = true)
     ["pixel_space"; "env_lsize"; "single_step"; "action_scale"; "max_step_scale"]%string).
Proof.
  assert (Hes : hasattr (patch_old_configs cfg) "env_shape" = hasattr cfg "env_shape").
  { unfold hasattr at 1. rewrite patch_old_configs_at. reflexivity. }
  assert (Hot : hasattr (patch_old_configs cfg) "obs_type" = true).
  { unfold hasattr at 1. rewrite patch_old_configs_at. cbn.
    destruct (hasattr cfg "env_shape"); [| reflexivity].
    destruct (cfg "obs_type"%string); reflexivity. }
  assert (Han : hasattr (patch_old_configs cfg) "action_noise"
                = if hasattr cfg "bottleneck_temperature"
                  then hasattr cfg "action_noise" else true).
  { unfold hasattr at 1. rewrite patch_old_configs_at. cbn.
    destruct (hasattr cfg "bottleneck_temperature"); reflexivity. }
  assert (Hrs : hasattr (patch_old_configs cfg) "reward_structure" = true).
  { unfold hasattr at 1. rewrite patch_old_configs_at. cbn.
    destruct (cfg "reward_structure"%string); reflexivity. }
  assert (Hda : hasattr (patch_old_configs cfg) "discrete_action" = true).
  { unfold hasattr at 1. rewrite patch_old_configs_at. cbn.
    destruct (cfg "discrete_action"%string); reflexivity. }
  assert (Hsame : forall a,
             In a ["pixel_space"; "env_lsize"; "single_step"; "action_scale";
                   "max_step_scale"]%string ->
             hasattr (patch_old_configs cfg) a = hasattr cfg a).
  { intros a Ha. unfold hasattr. rewrite patch_old_configs_at.
    cbn [In] in Ha. destruct Ha as [<- | [<- | [<- | [<- | [<- | []]]]]]; reflexivity. }
  split.
  - intros H. unfold make_env_kwargs, env_kwargs_fields. cbn [read_fields].
    rewrite <- Hes in H. unfold hasattr in H.
    destruct (patch_old_configs cfg "env_shape"%string); [discriminate | reflexivity].
  - unfold make_env_kwargs. rewrite read_fields_returns. unfold env_kwargs_fields. split.
    + intros H.
      repeat match goal with
        | H : Forall _ (_ :: _) |- _ => inversion H; clear H; subst
        end.
      cbn [snd] in *.
      rewrite Hes in *. rewrite Han in *.
      repeat match goal with
        | H : hasattr (patch_old_configs cfg) ?a = true |- _ =>
            rewrite (Hsame a) in H by (cbn [In]; tauto)
        end.
      split; [assumption |]. split.
      * intros Hb. rewrite Hb in *. assumption.
      * repeat constructor; assumption.
    + intros (H1 & H2 & H3).
      repeat match goal with
        | H : Forall _ (_ :: _) |- _ => inversion H; clear H; subst
        end.
      repeat constructor; cbn [snd];
        try (rewrite Hsame by (cbn [In]; tauto); assumption);
        try assumption.
      * rewrite Hes. exact H1.
      * rewrite Han. destruct (hasattr cfg "bottleneck_temperature"); [auto | reflexivity].
Qed.

Lemma make_env_kwargs_after_patch_witness :
  make_env_kwargs (patch_old_configs old_cfg) = inl "env_shape"%string /\
  exists d, make_env_kwargs (patch_old_configs new_cfg) = inr d.
Proof.
  destruct (make_env_kwargs_after_patch old_cfg) as [Hold _].
  destruct (make_env_kwargs_after_patch new_cfg) as [_ Hnew].
  split.
  - apply Hold. reflexivity.
  - apply Hnew. split; [reflexivity |]. split.
    + intros H. discriminate H.
    + repeat constructor.
Defined.

(** * The lexicon map *)

Lemma np_getitem2_in_range m a b :
  (0 <= a < nrows m)%Z -> (0 <= b < ncols m)%Z ->
  np_getitem2 m a b = Some (entry m a b).
Proof.
  intros Ha Hb. unfold np_getitem2.
  replace (- nrows m <=? a)%Z with true by (symmetry; apply Z.leb_le; lia).
  replace (a <? nrows m)%Z with true by (symmetry; apply Z.ltb_lt; lia).
  replace (- ncols m <=? b)%Z with true by (symmetry; apply Z.leb_le; lia).
  replace (b <? ncols m)%Z with true by (symmetry; apply Z.ltb_lt; lia).
  cbn [andb]. rewrite !Z.mod_small by lia. reflexivity.
Qed.

(** X23.  On a matrix of shape [(n + 1, n + 1)] and for every grid position
    [0 <= i, j <= 2 * n], [is_border] stays inside the matrix: it never
    raises [IndexError].  It answers [False] at every position with [i] and
    [j] both even, and at every position of a map whose entries are all
    equal. *)
Theorem is_border_on_grid m n i j :
  nrows m = (n + 1)%Z ->
  ncols m = (n + 1)%Z ->
  (0 <= i <= 2 * n)%Z ->
  (0 <= j <= 2 * n)%Z ->
  exists b,
    is_border m i j = Some b /\
    ((i mod 2 = 0)%Z -> (j mod 2 = 0)%Z -> b = false) /\
    ((forall a c a' c', entry m a c = entry m a' c') -> b = false).
Proof.
  intros Hr Hc Hi Hj. unfold is_border.
  assert (Hsecond :
    exists b,
      (if (j mod 2 =? 0)%Z then Some false
       else differ (np_getitem2 m (i / 2) ((j - 1) / 2))
                   (np_getitem2 m (i / 2) ((j + 1) / 2))) = Some b /\
      ((j mod 2 = 0)%Z -> b = false) /\
      ((forall a c a' c', entry m a c = entry m a' c') -> b = false)).
  { destruct (Z.eqb_spec (j mod 2) 0) as [Hj0 | Hj1].
    - exists false. repeat split.
    - rewrite !np_getitem2_in_range by (rewrite ?Hr, ?Hc; split; Z.to_euclidean_division_equations; lia).
      eexists. split; [reflexivity |]. split; [intros; contradiction |].
      intros Hu. rewrite (Hu (i / 2) ((j - 1) / 2) (i / 2) ((j + 1) / 2))%Z.
      rewrite Z.eqb_refl. reflexivity. }
  destruct (Z.eqb_spec (i mod 2) 0) as [Hi0 | Hi1].
  - destruct Hsecond as (b & Hb & Hb0 & Hbu). exists b. repeat split; auto.
  - rewrite !np_getitem2_in_range by (rewrite ?Hr, ?Hc; split; Z.to_euclidean_division_equations; lia).
    cbn [differ].
    destruct (Z.eqb_spec (entry m ((i - 1) / 2) (j / 2)) (entry m ((i + 1) / 2) (j / 2)))
      as [He | Hne]; cbn [negb].
    + destruct Hsecond as (b & Hb & Hb0 & Hbu). exists b.
      split; [exact Hb |]. split; [intros; contradiction | exact Hbu].
    + exists true. split; [reflexivity |]. split; [intros; contradiction |].
      intros Hu. exfalso. apply Hne. apply Hu.
Qed.

Lemma is_border_on_grid_witness :
  exists b,
    is_border two_regions 2 1 = Some b /\
    ((2 mod 2 = 0)%Z -> (1 mod 2 = 0)%Z -> b = false) /\
    ((forall a c a' c', entry two_regions a c = entry two_regions a' c') -> b = false).
Proof.
  apply (is_border_on_grid two_regions 2 2 1); try reflexivity; lia.
Defined.
